(** * Vector index synchronisation and semantic search

    A shallow embedding of [vector_store.py] (class [TrialVectorStore]) and of
    the [/semantic-search] and [/trials] handlers of [Project.py], together
    with the properties of the index/ledger pair that the design document
    states about them.

    Conventions of the embedding.
    - [float32]/[float] scalars are exact rationals ([Q]); rounding is not
      part of the model.
    - Python integers are [Z]; list positions are [nat].
    - A Python [dict] with string keys is a [gmap string value].
    - A method that can raise returns [exn + A]; a method that mutates [self]
      (or the file system) before raising returns the mutated state next to
      the result.
    - The two external libraries are modelled by their contracts: the sentence
      encoder is an interface ([SentenceTransformer]); FAISS's [IndexFlatL2]
      is the exact flat index, selecting neighbours by increasing
      (distance, position). *)

From Stdlib Require Import ZArith QArith List Ascii String Sorted Permutation Lia.
From stdpp Require Import base gmap strings list.
Import ListNotations.

Open Scope Z_scope.

(** ** Python values and exceptions *)

Definition datetime := Z.

Inductive value :=
| VStr (s : string)
| VNone
| VFloat (q : Q)
| VObjectId (hex : string)
| VDatetime (t : datetime).

#[global] Instance Q_eq_dec : EqDecision Q.
Proof. solve_decision. Defined.

#[global] Instance value_eq_dec : EqDecision value.
Proof. solve_decision. Defined.

(** The two assertions of FAISS's Python wrapper that the store can trip. *)
Inductive faiss_check :=
| DimensionMismatch   (* assert d == self.d *)
| NonPositiveK.       (* assert k > 0 *)

Inductive exn :=
| ValueError
| KeyError (key : string)
| IndexError
| TypeError
| AssertionError (c : faiss_check)
| RuntimeError
| FileNotFoundError
| FileExistsError
| PermissionError
| JSONDecodeError
| StopIteration
| AttributeError
| HTTPException (code : Z).

Definition result (A : Type) : Type := exn + A.

Definition bind {A B} (r : result A) (k : A -> result B) : result B :=
  match r with
  | inl e => inl e
  | inr a => k a
  end.

Notation "'let*' x ':=' r 'in' k" := (bind r (fun x => k))
  (at level 10, x pattern, r at level 100, k at level 200).

Definition fails {A} (r : result A) : Prop := exists e, r = inl e.

(** Rendering of values by [str()] and of dates by [isoformat()] is left to
    the interpreter. *)
Class PyFormat := {
  isoformat : datetime -> string;
  str_datetime : datetime -> string;
  repr_float : Q -> string
}.

Definition py_str `{PyFormat} (v : value) : string :=
  match v with
  | VStr s => s
  | VNone => "None"
  | VFloat q => repr_float q
  | VObjectId hex => hex
  | VDatetime t => str_datetime t
  end.

(** [l[i]] for a Python list: negative positions count from the end. *)
Definition py_getitem {A} (l : list A) (i : Z) : result A :=
  let n := Z.of_nat (length l) in
  let j := if i <? 0 then n + i else i in
  if (0 <=? j) && (j <? n) then
    match l !! Z.to_nat j with
    | Some x => inr x
    | None => inl IndexError
    end
  else inl IndexError.

(** [d[key]] for a Python dict. *)
Definition dict_getitem (t : gmap string value) (key : string) : result value :=
  match t !! key with
  | Some v => inr v
  | None => inl (KeyError key)
  end.

(** ** The sentence encoder *)

Abbreviation Embedding := (list Q).

Class SentenceTransformer := {
  encode : string -> Embedding;
  get_sentence_embedding_dimension : nat
}.

(** ** FAISS: the exact flat L2 index *)

Module faiss.

Record IndexFlatL2 := {
  d : nat;
  xb : list Embedding
}.

Definition ntotal (ix : IndexFlatL2) : nat := length (xb ix).

Definition create (dim : nat) : IndexFlatL2 := {| d := dim; xb := [] |}.

(** [index.add(x)]: [x] is a 2-D array whose rows have length [d]. An array
    built from an empty batch is 1-D, and [n, d = x.shape] raises. *)
Definition add (ix : IndexFlatL2) (x : list Embedding) : result IndexFlatL2 :=
  match x with
  | [] => inl ValueError
  | _ =>
    if forallb (fun v => Nat.eqb (length v) (d ix)) x
    then inr {| d := d ix; xb := xb ix ++ x |}
    else inl (AssertionError DimensionMismatch)
  end.

(** Squared Euclidean distance. *)
Fixpoint fvec_L2sqr (x y : Embedding) : Q :=
  match x, y with
  | a :: x', b :: y' => ((a - b) * (a - b) + fvec_L2sqr x' y')%Q
  | _, _ => 0%Q
  end.

(** A candidate neighbour: its position in the index and its distance. *)
Abbreviation hit := (nat * Q)%type.

(** [hit_leb a b]: [a] is at least as good as [b], comparing the distance
    first and the position second. *)
Definition hit_leb (a b : hit) : bool :=
  match (snd a ?= snd b)%Q with
  | Lt => true
  | Eq => Nat.leb (fst a) (fst b)
  | Gt => false
  end.

Fixpoint insert_hit (h : hit) (l : list hit) : list hit :=
  match l with
  | [] => [h]
  | h' :: l' => if hit_leb h h' then h :: l else h' :: insert_hit h l'
  end.

Fixpoint sort_hits (l : list hit) : list hit :=
  match l with
  | [] => []
  | h :: l' => insert_hit h (sort_hits l')
  end.

Fixpoint enumerate_from {A} (i : nat) (l : list A) : list (nat * A) :=
  match l with
  | [] => []
  | a :: l' => (i, a) :: enumerate_from (S i) l'
  end.

Definition all_hits (ix : IndexFlatL2) (q : Embedding) : list hit :=
  enumerate_from 0 (map (fvec_L2sqr q) (xb ix)).

(** Largest finite [float32]: the distance reported for a missing
    neighbour, whose label is [-1]. *)
Definition FLT_MAX : Q := 340282346638528859811704183484516925440 # 1.

Definition knn (ix : IndexFlatL2) (q : Embedding) (k : nat) : list hit :=
  firstn k (sort_hits (all_hits ix q)).

(** [index.search(x, k)] for one query row: the arrays [(distances[0],
    indices[0])], both of length [k]. *)
Definition search (ix : IndexFlatL2) (q : Embedding) (k : Z)
  : result (list Q * list Z) :=
  if negb (Nat.eqb (length q) (d ix)) then inl (AssertionError DimensionMismatch)
  else if k <=? 0 then inl (AssertionError NonPositiveK)
  else
    let found := knn ix q (Z.to_nat k) in
    let missing := (Z.to_nat k - length found)%nat in
    inr (map snd found ++ repeat FLT_MAX missing,
         map (fun h => Z.of_nat (fst h)) found ++ repeat (-1) missing).

End faiss.

(** ** The vector store ([vector_store.py]) *)

Abbreviation trial := (gmap string value).

Record SearchResult := {
  trial_id : value;
  similarity_score : Q
}.

Record TrialVectorStore := {
  index : option faiss.IndexFlatL2;
  trial_ids : list value;
  dimension : nat
}.

Definition set_index (ix : option faiss.IndexFlatL2) (s : TrialVectorStore) :=
  {| index := ix; trial_ids := trial_ids s; dimension := dimension s |}.

Definition set_trial_ids (ids : list value) (s : TrialVectorStore) :=
  {| index := index s; trial_ids := ids; dimension := dimension s |}.

(** Number of vectors held by the store's index; a store without an index
    holds none. *)
Definition index_size (s : TrialVectorStore) : nat :=
  match index s with
  | Some ix => faiss.ntotal ix
  | None => 0
  end.

(** The length-parity invariant of the index/ledger pair. *)
Definition parity (s : TrialVectorStore) : Prop :=
  index_size s = length (trial_ids s).

(** ** The file system seen by [save] and [load] *)

Inductive file :=
| FaissFile (ix : faiss.IndexFlatL2)
| JsonFile (ids : list value)
| Truncated.

Record filesystem := {
  files : gmap string file;
  dirs : gset string;
  readonly : gset string      (* paths that cannot be opened for writing *)
}.

(** A step on the disk: the file system is threaded through, and the first
    exception ends the sequence with the disk as it is by then. *)
Definition on_disk (A : Type) : Type := filesystem -> filesystem * result A.

Definition and_then {A B} (m : on_disk A) (k : on_disk B) : on_disk B :=
  fun w =>
    match m w with
    | (w1, inl e) => (w1, inl e)
    | (w1, inr _) => k w1
    end.

Infix ">>>" := and_then (at level 65, right associativity).

Definition set_files (fs : gmap string file) (w : filesystem) : filesystem :=
  {| files := fs; dirs := dirs w; readonly := readonly w |}.

Fixpoint ends_with_slash (p : string) : bool :=
  match p with
  | EmptyString => false
  | String c EmptyString => bool_decide (c = "/"%char)
  | String _ p' => ends_with_slash p'
  end.

(** [os.path.join(path, name)] for a relative [name]. *)
Definition os_path_join (path name : string) : string :=
  match path with
  | EmptyString => name
  | _ => if ends_with_slash path then path +:+ name else path +:+ "/" +:+ name
  end.

(** [os.makedirs(path, exist_ok=True)] *)
Definition makedirs (path : string) : on_disk unit := fun w =>
  if bool_decide (path = "") then (w, inl FileNotFoundError)
  else
    match files w !! path with
    | Some _ => (w, inl FileExistsError)
    | None => ({| files := files w; dirs := {[path]} ∪ dirs w; readonly := readonly w |},
               inr tt)
    end.

(** [faiss.write_index(index, p)] *)
Definition write_index (ix : option faiss.IndexFlatL2) (p : string)
  : on_disk unit := fun w =>
  match ix with
  | None => (w, inl TypeError)
  | Some ix =>
    if bool_decide (p ∈ readonly w) then (w, inl RuntimeError)
    else (set_files (<[p := FaissFile ix]> (files w)) w, inr tt)
  end.

(** [open(p, "w")]: the file is created or emptied. *)
Definition open_w (p : string) : on_disk unit := fun w =>
  if bool_decide (p ∈ readonly w) then (w, inl PermissionError)
  else (set_files (<[p := Truncated]> (files w)) w, inr tt).

Definition json_serializable (v : value) : bool :=
  match v with
  | VStr _ | VNone | VFloat _ => true
  | VObjectId _ | VDatetime _ => false
  end.

(** [json.dump(ids, f)] into the file opened at [p]; an unserialisable
    element raises and leaves the file incomplete. *)
Definition json_dump (ids : list value) (p : string) : on_disk unit := fun w =>
  if forallb json_serializable ids
  then (set_files (<[p := JsonFile ids]> (files w)) w, inr tt)
  else (w, inl TypeError).

(** [faiss.read_index(p)] *)
Definition read_index (p : string) (w : filesystem) : result faiss.IndexFlatL2 :=
  match files w !! p with
  | Some (FaissFile ix) => inr ix
  | _ => inl RuntimeError
  end.

(** [with open(p, "r") as f: json.load(f)] *)
Definition json_load (p : string) (w : filesystem) : result (list value) :=
  match files w !! p with
  | Some (JsonFile ids) => inr ids
  | Some _ => inl JSONDecodeError
  | None => inl FileNotFoundError
  end.

Section VectorStore.

Context `{model : SentenceTransformer} `{fmt : PyFormat}.

(** [TrialVectorStore()] *)
Definition new_store : TrialVectorStore :=
  {| index := None; trial_ids := []; dimension := get_sentence_embedding_dimension |}.

Definition create_index (s : TrialVectorStore) : TrialVectorStore :=
  set_index (Some (faiss.create (dimension s))) s.

(** The text embedded for one trial:
    [f"{trial['title']} {trial['description']} {trial['primary_outcome']}"] *)
Definition subject_text (t : trial) : result string :=
  let* title := dict_getitem t "title" in
  let* description := dict_getitem t "description" in
  let* primary_outcome := dict_getitem t "primary_outcome" in
  inr (py_str title +:+ " " +:+ py_str description +:+ " " +:+ py_str primary_outcome).

(** The first loop of [add_trials]: the texts and the identifiers. *)
Fixpoint collect_texts (trials : list trial) : result (list string * list value) :=
  match trials with
  | [] => inr ([], [])
  | t :: rest =>
    let* text := subject_text t in
    let* id := dict_getitem t "id" in
    let* (texts, ids) := collect_texts rest in
    inr (text :: texts, id :: ids)
  end.

Definition add_trials (s : TrialVectorStore) (trials : list trial)
  : TrialVectorStore * result unit :=
  match collect_texts trials with
  | inl e => (s, inl e)
  | inr (texts, ids) =>
    let embeddings := map encode texts in
    let s1 := match index s with None => create_index s | Some _ => s end in
    match index s1 with
    | None => (s1, inl TypeError)
    | Some ix =>
      match faiss.add ix embeddings with
      | inl e => (s1, inl e)
      | inr ix' => (set_trial_ids (trial_ids s1 ++ ids) (set_index (Some ix') s1), inr tt)
      end
    end
  end.

(** The result loop of [search]. *)
Fixpoint collect_results (ids : list value) (distances : list Q)
    (i : nat) (indices : list Z) : result (list SearchResult) :=
  match indices with
  | [] => inr []
  | idx :: rest =>
    if idx <? Z.of_nat (length ids) then
      let* tid := py_getitem ids idx in
      let* dist := py_getitem distances (Z.of_nat i) in
      let* tl := collect_results ids distances (S i) rest in
      inr ({| trial_id := tid; similarity_score := (1 - dist / 10)%Q |} :: tl)
    else collect_results ids distances (S i) rest
  end.

Definition search (s : TrialVectorStore) (query : string) (top_k : Z)
  : result (list SearchResult) :=
  match index s with
  | None => inl ValueError
  | Some ix =>
    if Nat.eqb (length (trial_ids s)) 0 then inr []
    else
      let query_embedding := encode query in
      let* (distances, indices) :=
        faiss.search ix query_embedding
          (Z.min top_k (Z.of_nat (length (trial_ids s)))) in
      collect_results (trial_ids s) distances 0 indices
  end.

Definition save (s : TrialVectorStore) (path : string) : on_disk unit :=
  makedirs path >>>
  write_index (index s) (os_path_join path "index.faiss") >>>
  open_w (os_path_join path "trial_ids.json") >>>
  json_dump (trial_ids s) (os_path_join path "trial_ids.json").

Definition load (s : TrialVectorStore) (path : string) (w : filesystem)
  : TrialVectorStore * result unit :=
  match read_index (os_path_join path "index.faiss") w with
  | inl e => (s, inl e)
  | inr ix =>
    let s1 := set_index (Some ix) s in
    match json_load (os_path_join path "trial_ids.json") w with
    | inl e => (s1, inl e)
    | inr ids => (set_trial_ids ids s1, inr tt)
    end
  end.

End VectorStore.

(** ** The API handlers ([Project.py]) *)

(** The process-wide [vector_store] global and the disk it persists to. *)
Record app_state := {
  vector_store : option TrialVectorStore;
  disk : filesystem
}.

(** [db.trials.find_one({"id": tid})]: the first document whose [id] field
    equals [tid]; a [null] query value also matches a missing field. *)
Definition matches_id (tid : value) (doc : trial) : bool :=
  match doc !! "id" with
  | Some v => bool_decide (v = tid)
  | None => bool_decide (tid = VNone)
  end.

Definition find_one (db : list trial) (tid : value) : option trial :=
  List.find (matches_id tid) db.

(** [mapM]: run [f] over a list, stopping at the first exception. *)
Fixpoint for_each {A B} (f : A -> result B) (l : list A) : result (list B) :=
  match l with
  | [] => inr []
  | a :: l' =>
    let* b := f a in
    let* bs := for_each f l' in
    inr (b :: bs)
  end.

Section Handlers.

Context `{model : SentenceTransformer} `{fmt : PyFormat}.

(** [trial["_id"] = str(trial["_id"])] *)
Definition stringify_id (t : trial) : result trial :=
  let* oid := dict_getitem t "_id" in
  inr (<["_id" := VStr (py_str oid)]> t).

(** [if isinstance(trial.get(key), datetime): trial[key] = trial[key].isoformat()] *)
Definition isoformat_field (key : string) (t : trial) : trial :=
  match t !! key with
  | Some (VDatetime dt) => <[key := VStr (isoformat dt)]> t
  | _ => t
  end.

(** [next(r["similarity_score"] for r in results if r["trial_id"] == tid)] *)
Definition first_score (results : list SearchResult) (tid : value) : result Q :=
  match List.find (fun r => bool_decide (trial_id r = tid)) results with
  | Some r => inr (similarity_score r)
  | None => inl StopIteration
  end.

(** The body of the resolution loop for a document that was found. *)
Definition attach (results : list SearchResult) (tid : value) (doc : trial)
  : result trial :=
  let* t1 := stringify_id doc in
  let* score := first_score results tid in
  let t2 := <["similarity_score" := VFloat score]> t1 in
  inr (isoformat_field "updated_at"
        (isoformat_field "created_at"
          (isoformat_field "end_date"
            (isoformat_field "start_date" t2)))).

(** The resolution loop: identifiers without a (non-empty) document are
    skipped. *)
Fixpoint resolve (db : list trial) (results : list SearchResult)
    (tids : list value) : result (list trial) :=
  match tids with
  | [] => inr []
  | tid :: rest =>
    match find_one db tid with
    | Some doc =>
      if bool_decide (doc = ∅) then resolve db results rest
      else
        let* t := attach results tid doc in
        let* ts := resolve db results rest in
        inr (t :: ts)
    | None => resolve db results rest
    end
  end.

(** The lazy initialisation at the head of [semantic_search]; the global is
    assigned before anything can fail. *)
Definition initialise (db : list trial) (st : app_state) : app_state * result unit :=
  let vs0 := create_index new_store in
  match for_each stringify_id db with
  | inl e => ({| vector_store := Some vs0; disk := disk st |}, inl e)
  | inr trials =>
    match add_trials vs0 trials with
    | (vs1, inl e) => ({| vector_store := Some vs1; disk := disk st |}, inl e)
    | (vs1, inr _) =>
      let '(w, r) := save vs1 "vector_store" (disk st) in
      ({| vector_store := Some vs1; disk := w |}, r)
    end
  end.

Definition needs_init (st : app_state) : bool :=
  match vector_store st with
  | None => true
  | Some vs => match index vs with None => true | Some _ => false end
  end.

Definition semantic_search (query : string) (top_k : Z) (db : list trial)
    (st : app_state) : app_state * result (list trial) :=
  let '(st1, init) :=
    if needs_init st then initialise db st else (st, inr tt) in
  match init with
  | inl _ => (st1, inl (HTTPException 500))
  | inr _ =>
    match vector_store st1 with
    | None => (st1, inl (HTTPException 500))
    | Some vs =>
      match (let* results := search vs query top_k in
             resolve db results (map trial_id results)) with
      | inl _ => (st1, inl (HTTPException 500))
      | inr trials => (st1, inr trials)
      end
    end
  end.

(** [create_trial] from the insertion on: the trial is added to the global
    store and the store is persisted; nothing is caught. *)
Definition create_trial (trial_dict : trial) (acknowledged : bool)
    (st : app_state) : app_state * result unit :=
  if negb acknowledged then (st, inl (HTTPException 500))
  else
    match vector_store st with
    | None => (st, inl AttributeError)
    | Some vs =>
      match add_trials vs [trial_dict] with
      | (vs1, inl e) => ({| vector_store := Some vs1; disk := disk st |}, inl e)
      | (vs1, inr _) =>
        let '(w, r) := save vs1 "vector_store" (disk st) in
        ({| vector_store := Some vs1; disk := w |}, r)
      end
    end.

End Handlers.

(** * Vocabulary of the properties *)

Module faiss_spec.
Import faiss.

(** [closer a b]: hit [a] ranks no later than hit [b]. *)
Definition closer (a b : hit) : Prop :=
  (snd a < snd b)%Q \/ ((snd a == snd b)%Q /\ (fst a <= fst b)%nat).

(** The distance of the vector at position [p] to the query. *)
Definition distance_at (ix : IndexFlatL2) (q : Embedding) (p : nat) : Q :=
  fvec_L2sqr q (nth p (xb ix) []).


(** The (label, distance) pairs behind the two arrays of [faiss.search]. *)
Definition neighbours (ix : IndexFlatL2) (q : Embedding) (k : nat) : list (Z * Q) :=
  map (fun h : hit => (Z.of_nat (fst h), snd h)) (knn ix q k)
  ++ repeat (-1, FLT_MAX) (k - length (knn ix q k)).

End faiss_spec.

(** The ledger position that Python's indexing reads for label [idx]. *)
Definition ledger_position (ids : list value) (idx : Z) : nat :=
  Z.to_nat (if idx <? 0 then Z.of_nat (length ids) + idx else idx).

(** The guard of the result loop on a (label, distance) pair. *)
Definition in_ledger (ids : list value) (nb : Z * Q) : bool :=
  fst nb <? Z.of_nat (length ids).

Definition to_result (ids : list value) (nb : Z * Q) : SearchResult :=
  {| trial_id := nth (ledger_position ids (fst nb)) ids VNone;
     similarity_score := (1 - snd nb / 10)%Q |}.

(** ** Neighbours seen by the store *)

(** The (label, distance) pairs that [search] receives from the index, in the
    order of the result arrays; none when the index is missing or refuses the
    request. *)
Definition store_neighbours `{model : SentenceTransformer}
    (s : TrialVectorStore) (query : string) (top_k : Z) : list (Z * Q) :=
  match index s with
  | None => []
  | Some ix =>
    match faiss.search ix (encode query)
            (Z.min top_k (Z.of_nat (length (trial_ids s)))) with
    | inl _ => []
    | inr (dists, labels) => combine labels dists
    end
  end.


(** ** Nearest neighbours first *)

(** The result that [search] builds for ledger position [p]. *)
Definition result_at `{model : SentenceTransformer}
    (s : TrialVectorStore) (ix : faiss.IndexFlatL2) (query : string) (p : nat)
    : SearchResult :=
  {| trial_id := nth p (trial_ids s) VNone;
     similarity_score := (1 - faiss_spec.distance_at ix (encode query) p / 10)%Q |}.


(** ** Insertion *)

(** The dimension a store's index is, or will be, bound to. *)
Definition bound_dimension (s : TrialVectorStore) : nat :=
  match index s with
  | Some ix => faiss.d ix
  | None => dimension s
  end.

(** The index that [add_trials] inserts into. *)
Definition target_index (s : TrialVectorStore) : faiss.IndexFlatL2 :=
  match index s with
  | Some ix => ix
  | None => faiss.create (dimension s)
  end.

(** ** Persistence *)

(** The two files of the persisted artifact at [path], as found on disk. *)
Definition artifact (w : filesystem) (path : string) : option file * option file :=
  (files w !! os_path_join path "index.faiss",
   files w !! os_path_join path "trial_ids.json").

(** The artifact that holds the whole of store [s]. *)
Definition artifact_of (s : TrialVectorStore) : option file * option file :=
  (FaissFile <$> index s, Some (JsonFile (trial_ids s))).

(** ** Resolution against the primary store *)

(** [resolvable db tid]: the primary store has a (non-empty) document for the
    identifier. *)
Definition resolvable (db : list trial) (tid : value) : bool :=
  match find_one db tid with
  | Some doc => negb (bool_decide (doc = ∅))
  | None => false
  end.

(** ** The claims that the code does not meet, as stated *)

(** C1, as stated: a persisted artifact whose vector count and ledger length
    differ makes [load] fail. *)
Definition load_rejects_mismatch : Prop :=
  forall (model : SentenceTransformer) s path w ix ids,
    files w !! os_path_join path "index.faiss" = Some (FaissFile ix) ->
    files w !! os_path_join path "trial_ids.json" = Some (JsonFile ids) ->
    faiss.ntotal ix <> length ids ->
    fails (snd (load s path w)).

(** C2, as stated: every completed insertion and every completed load leaves
    the index and the ledger equally long, and so does an insertion whose
    persistence step fails. *)
Definition parity_after_every_operation : Prop :=
  forall (model : SentenceTransformer) (fmt : PyFormat) s,
    parity s ->
    (forall trials s', add_trials s trials = (s', inr tt) -> parity s') /\
    (forall trial_dict w st' r,
       create_trial trial_dict true {| vector_store := Some s; disk := w |} = (st', r) ->
       exists s', vector_store st' = Some s' /\ parity s') /\
    (forall path w s', load s path w = (s', inr tt) -> parity s').


(** C6, as stated: a query against a store whose index holds zero vectors
    returns the empty sequence. *)
Definition empty_index_query_is_empty : Prop :=
  forall (model : SentenceTransformer) s ix query top_k,
    index s = Some ix ->
    faiss.ntotal ix = 0%nat ->
    search s query top_k = inr [].


(** ** Concrete instances used in the examples below *)

Module Sample.

(** An encoder of dimension 2: the length of the text and a zero. *)
Definition length_model : SentenceTransformer :=
  {| encode := fun text => [inject_Z (Z.of_nat (String.length text)); 0%Q];
     get_sentence_embedding_dimension := 2 |}.

Definition plain_format : PyFormat :=
  {| isoformat := fun _ => "2023-01-15T00:00:00";
     str_datetime := fun _ => "2023-01-15 00:00:00";
     repr_float := fun _ => "0.0" |}.

Definition mk_trial (id title : string) : trial :=
  <["id" := VStr id]>
    (<["title" := VStr title]>
      (<["description" := VStr ""]>
        (<["primary_outcome" := VStr ""]> ∅))).

(** A stored document: [mk_trial] with the [_id] the database assigns. *)
Definition mk_doc (oid id title : string) : trial :=
  <["_id" := VObjectId oid]> (mk_trial id title).

Definition two_vectors : faiss.IndexFlatL2 :=
  {| faiss.d := 2; faiss.xb := [[3%Q; 0%Q]; [9%Q; 0%Q]] |}.

Definition empty_disk : filesystem :=
  {| files := ∅; dirs := ∅; readonly := ∅ |}.

(** Vectors of count 2 next to a ledger of length 1. *)
Definition mismatched_disk : filesystem :=
  {| files := <["vector_store/index.faiss" := FaissFile two_vectors]>
                (<["vector_store/trial_ids.json" := JsonFile [VStr "test-1"]]> ∅);
     dirs := {["vector_store"]};
     readonly := ∅ |}.

(** An empty index next to a ledger of length 1. *)
Definition ledger_without_vectors : TrialVectorStore :=
  {| index := Some (faiss.create 2); trial_ids := [VStr "test-1"]; dimension := 2 |}.

(** Two vectors in the index, one identifier in the ledger: the store that
    [load] builds from [mismatched_disk]. *)
Definition more_vectors_than_ids : TrialVectorStore :=
  {| index := Some two_vectors; trial_ids := [VStr "test-1"]; dimension := 2 |}.

(** Two vectors, two identifiers. *)
Definition two_trials : TrialVectorStore :=
  {| index := Some two_vectors;
     trial_ids := [VStr "test-1"; VStr "test-2"];
     dimension := 2 |}.

(** An empty index bound to dimension 3, one more than [length_model]
    produces. *)
Definition bound_to_three : TrialVectorStore :=
  {| index := Some (faiss.create 3); trial_ids := []; dimension := 3 |}.


(** The disk after [one_trial] was saved, with the ledger file no longer
    writable. *)
Definition ledger_locked_disk : filesystem :=
  {| files := <["vector_store/index.faiss" :=
                  FaissFile {| faiss.d := 2; faiss.xb := [[3%Q; 0%Q]] |}]>
                (<["vector_store/trial_ids.json" := JsonFile [VStr "test-1"]]> ∅);
     dirs := {["vector_store"]};
     readonly := {["vector_store/trial_ids.json"]} |}.

(** A primary store that still has the second trial but no longer the
    first, and the application state holding [two_trials]. *)
Definition db_without_first : list trial :=
  [mk_doc "64a1f0" "test-2" "Diabetes Study"].

Definition serving_two_trials : app_state :=
  {| vector_store := Some two_trials; disk := empty_disk |}.

End Sample.

(** ** What a store holds *)

(** The keys [add_trials] reads from a trial, in the order it reads them. *)
Definition required_keys : list string :=
  ["title"; "description"; "primary_outcome"; "id"].

(** The first of the required keys that trial [t] lacks. *)
Definition missing_key (t : trial) : option string :=
  List.find (fun key => bool_decide (t !! key = None)) required_keys.

(** The first missing key of the first trial of the batch that lacks one. *)
Fixpoint first_missing_key (trials : list trial) : option string :=
  match trials with
  | [] => None
  | t :: rest =>
    match missing_key t with
    | Some key => Some key
    | None => first_missing_key rest
    end
  end.

(** [holds s trials]: the vectors of the store are the embeddings of the
    subject texts of [trials], and its ledger is their identifiers, both in
    the order of [trials]. A store without an index holds no vector. *)
Definition holds `{model : SentenceTransformer} `{fmt : PyFormat}
    (s : TrialVectorStore) (trials : list trial) : Prop :=
  exists texts ids,
    collect_texts trials = inr (texts, ids) /\
    faiss.xb (target_index s) = map encode texts /\
    trial_ids s = ids.

(** ** Further concrete instances *)

Module Cases.

(** A trial without a title. *)
Definition untitled : trial :=
  <["id" := VStr "test-3"]>
    (<["description" := VStr "A study"]>
      (<["primary_outcome" := VStr "Weight loss"]> ∅)).

Definition obesity_trial : trial :=
  Sample.mk_trial "test-1" "Obesity Treatment Trial".

Definition diabetes_trial : trial :=
  Sample.mk_trial "test-2" "Diabetes Study".

(** A primary store whose second document has no title. *)
Definition db_with_untitled : list trial :=
  [Sample.mk_doc "64a1f0" "test-1" "Obesity Treatment Trial";
   <["_id" := VObjectId "64a1f1"]> untitled].


(** A store whose only identifier is a database object id, which JSON cannot
    render. *)
Definition objectid_ledger : TrialVectorStore :=
  {| index := Some {| faiss.d := 2; faiss.xb := [[3%Q; 0%Q]] |};
     trial_ids := [VObjectId "64a1f0"];
     dimension := 2 |}.

End Cases.

(** ** Cold start and refresh ([Project.py]) *)

(** What [refresh_vector_store] reports when it completes. *)
Inductive refresh_status :=
| Refreshed (n : nat)       (* "Refreshed vector store with n trials" *)
| NothingToIndex.           (* "No trials found to index" *)

Section Synchronizer.

Context `{model : SentenceTransformer} `{fmt : PyFormat}.

(** The startup hook. [fetch] is what [get_db()] followed by
    [list(db.trials.find({}))] yields: the stored documents, or the exception
    raised on the way. Every exception is caught and printed, so the hook
    only leaves a state behind. *)
Definition initialize_vector_store (fetch : result (list trial)) (w : filesystem)
  : app_state :=
  match load new_store "vector_store" w with
  | (vs, inr _) => {| vector_store := Some vs; disk := w |}
  | (vs, inl _) =>
    let vs0 := create_index vs in
    match fetch with
    | inl _ => {| vector_store := Some vs0; disk := w |}
    | inr [] => {| vector_store := Some vs0; disk := w |}
    | inr trials =>
      match for_each stringify_id trials with
      | inl _ => {| vector_store := Some vs0; disk := w |}
      | inr trials' =>
        match add_trials vs0 trials' with
        | (vs1, inl _) => {| vector_store := Some vs1; disk := w |}
        | (vs1, inr _) =>
          {| vector_store := Some vs1; disk := fst (save vs1 "vector_store" w) |}
        end
      end
    end
  end.

(** [POST /refresh-vector-store]: the global is replaced first; any exception
    becomes [HTTPException(500)]. *)
Definition refresh_vector_store (db : list trial) (st : app_state)
  : app_state * result refresh_status :=
  let vs0 := create_index new_store in
  match for_each stringify_id db with
  | inl _ => ({| vector_store := Some vs0; disk := disk st |}, inl (HTTPException 500))
  | inr [] => ({| vector_store := Some vs0; disk := disk st |}, inr NothingToIndex)
  | inr trials =>
    match add_trials vs0 trials with
    | (vs1, inl _) =>
      ({| vector_store := Some vs1; disk := disk st |}, inl (HTTPException 500))
    | (vs1, inr _) =>
      match save vs1 "vector_store" (disk st) with
      | (w, inl _) => ({| vector_store := Some vs1; disk := w |}, inl (HTTPException 500))
      | (w, inr _) =>
        ({| vector_store := Some vs1; disk := w |}, inr (Refreshed (length trials)))
      end
    end
  end.

End Synchronizer.

(** A store whose index has just been created over an empty ledger. *)
Definition fresh (vs : TrialVectorStore) : Prop :=
  index vs = Some (faiss.create (dimension vs)) /\ trial_ids vs = [].

(** ** What the search handler serves *)

(** The date fields that the resolution loop renders. *)
Definition date_keys : list string :=
  ["start_date"; "end_date"; "created_at"; "updated_at"].

(** [served rs tid doc t]: [t] is the stored document [doc], found for [tid],
    with its [_id] rendered as a string, the score of the first result for
    [tid] attached, no date field left as a [datetime], and every other field
    as stored. *)
Definition served `{fmt : PyFormat} (rs : list SearchResult) (tid : value)
    (doc t : trial) : Prop :=
  matches_id tid doc = true /\
  (exists score,
     first_score rs tid = inr score /\
     t !! "similarity_score" = Some (VFloat score)) /\
  (exists oid, doc !! "_id" = Some oid /\ t !! "_id" = Some (VStr (py_str oid))) /\
  (forall key dt, key ∈ date_keys -> t !! key <> Some (VDatetime dt)) /\
  (forall key,
     key <> "_id" -> key <> "similarity_score" -> key ∉ date_keys ->
     t !! key = doc !! key).

(** * Properties *)

(** ** The flat index: neighbour selection *)

Module faiss_facts.
Import faiss faiss_spec.

Lemma hit_leb_closer a b : hit_leb a b = true <-> closer a b.
Proof.
  unfold hit_leb, closer.
  destruct (snd a ?= snd b)%Q eqn:E.
  - apply Qeq_alt in E. rewrite Nat.leb_le. split.
    + intros Hle. right. split; assumption.
    + intros [Hlt | [_ Hle]]; [|exact Hle].
      rewrite E in Hlt. exfalso. eapply Qlt_irrefl, Hlt.
  - apply Qlt_alt in E. split; [intros _; left; exact E | reflexivity].
  - apply Qgt_alt in E. split; [discriminate|].
    intros [Hlt | [Heq _]]; exfalso.
    + eapply Qlt_irrefl, Qlt_trans; eassumption.
    + rewrite Heq in E. eapply Qlt_irrefl, E.
Qed.

Lemma hit_leb_total a b : hit_leb a b = false -> closer b a.
Proof.
  unfold hit_leb, closer.
  destruct (snd a ?= snd b)%Q eqn:E; try discriminate.
  - apply Qeq_alt in E. rewrite Nat.leb_gt. intros Hlt.
    right. split; [symmetry; exact E | lia].
  - apply Qgt_alt in E. intros _. left. exact E.
Qed.

Lemma closer_trans a b c : closer a b -> closer b c -> closer a c.
Proof.
  unfold closer. intros [H1 | [H1 L1]] [H2 | [H2 L2]].
  - left. eapply Qlt_trans; eassumption.
  - left. rewrite <- H2. exact H1.
  - left. rewrite H1. exact H2.
  - right. split; [rewrite H1; exact H2 | lia].
Qed.

Lemma insert_hit_perm h l : Permutation (h :: l) (insert_hit h l).
Proof.
  induction l as [|h' l IH]; simpl; [reflexivity|].
  destruct (hit_leb h h'); [reflexivity|].
  rewrite perm_swap. constructor. exact IH.
Qed.

Lemma sort_hits_perm l : Permutation l (sort_hits l).
Proof.
  induction l as [|h l IH]; simpl; [reflexivity|].
  rewrite <- insert_hit_perm. constructor. exact IH.
Qed.

Lemma insert_hit_sorted h l :
  StronglySorted closer l -> StronglySorted closer (insert_hit h l).
Proof.
  induction 1 as [|h' l Hs IH Hall]; simpl.
  - repeat constructor.
  - destruct (hit_leb h h') eqn:E.
    + apply hit_leb_closer in E. constructor.
      * constructor; assumption.
      * constructor; [exact E|].
        eapply Forall_impl; [exact Hall|].
        intros c Hc. eapply closer_trans; eassumption.
    + apply hit_leb_total in E. constructor; [exact IH|].
      rewrite <- insert_hit_perm. constructor; assumption.
Qed.

Lemma sort_hits_sorted l : StronglySorted closer (sort_hits l).
Proof.
  induction l as [|h l IH]; simpl; [constructor|].
  apply insert_hit_sorted, IH.
Qed.

Lemma enumerate_from_lookup {A} (l : list A) i j :
  enumerate_from i l !! j = (fun a => ((i + j)%nat, a)) <$> l !! j.
Proof.
  revert i j. induction l as [|a l IH]; intros i j; simpl.
  - reflexivity.
  - destruct j as [|j]; simpl.
    + rewrite Nat.add_0_r. reflexivity.
    + rewrite IH. replace (S i + j)%nat with (i + S j)%nat by lia. reflexivity.
Qed.

Lemma enumerate_from_fst {A} (l : list A) i :
  map fst (enumerate_from i l) = seq i (length l).
Proof.
  revert i. induction l as [|a l IH]; intros i; simpl; [reflexivity|].
  rewrite IH. reflexivity.
Qed.

Lemma enumerate_from_length {A} (l : list A) i :
  length (enumerate_from i l) = length l.
Proof.
  revert i. induction l as [|a l IH]; intros i; simpl; [reflexivity|].
  rewrite IH. reflexivity.
Qed.

Lemma all_hits_length ix q : length (all_hits ix q) = ntotal ix.
Proof.
  unfold all_hits, ntotal. rewrite enumerate_from_length. apply length_map.
Qed.

Lemma all_hits_elem ix q h :
  h ∈ all_hits ix q <->
  (fst h < ntotal ix)%nat /\ snd h = distance_at ix q (fst h).
Proof.
  unfold all_hits, ntotal, distance_at. rewrite list_elem_of_lookup. split.
  - intros [j Hj]. rewrite enumerate_from_lookup, list_lookup_fmap in Hj.
    destruct (xb ix !! j) as [v|] eqn:Ev; simpl in Hj; [|discriminate].
    injection Hj as <-. simpl. split.
    + eapply lookup_lt_Some, Ev.
    + f_equal. symmetry. apply nth_lookup_Some with (d := []) in Ev. exact Ev.
  - intros [Hlt Hd]. exists (fst h).
    rewrite enumerate_from_lookup, list_lookup_fmap.
    destruct (lookup_lt_is_Some_2 _ _ Hlt) as [v Ev]. rewrite Ev. simpl.
    destruct h as [p dist]. simpl in *. rewrite Hd.
    apply nth_lookup_Some with (d := []) in Ev. subst v. reflexivity.
Qed.


Lemma knn_length ix q k : length (knn ix q k) = Nat.min k (ntotal ix).
Proof.
  unfold knn. rewrite length_take, <- (all_hits_length ix q).
  rewrite (Permutation_length (sort_hits_perm (all_hits ix q))). reflexivity.
Qed.

Lemma knn_elem ix q k h : h ∈ knn ix q k -> h ∈ all_hits ix q.
Proof.
  unfold knn. intros Hin. rewrite (sort_hits_perm (all_hits ix q)).
  eapply subseteq_take, Hin.
Qed.



End faiss_facts.

(** ** The result loop of [search] *)

Lemma py_getitem_in_range {A} (l : list A) (i : Z) (dflt : A) :
  - Z.of_nat (length l) <= i < Z.of_nat (length l) ->
  py_getitem l i =
  inr (nth (Z.to_nat (if i <? 0 then Z.of_nat (length l) + i else i)) l dflt).
Proof.
  intros Hi. unfold py_getitem.
  set (j := if i <? 0 then Z.of_nat (length l) + i else i).
  assert (0 <= j < Z.of_nat (length l)) as Hj.
  { unfold j. destruct (Z.ltb_spec i 0); lia. }
  destruct (Z.leb_spec 0 j); [|lia]. destruct (Z.ltb_spec j (Z.of_nat (length l))); [|lia].
  simpl. destruct (l !! Z.to_nat j) as [x|] eqn:E.
  - apply nth_lookup_Some with (d := dflt) in E. rewrite E. reflexivity.
  - apply lookup_ge_None in E. lia.
Qed.

Lemma py_getitem_middle (pre post : list Q) (x : Q) :
  py_getitem (pre ++ x :: post) (Z.of_nat (length pre)) = inr x.
Proof.
  rewrite (py_getitem_in_range _ _ 0%Q).
  - destruct (Z.ltb_spec (Z.of_nat (length pre)) 0); [lia|].
    rewrite Nat2Z.id, nth_middle. reflexivity.
  - rewrite length_app. simpl. lia.
Qed.

Section SearchFacts.

Context `{model : SentenceTransformer}.

Lemma collect_results_spec ids : forall Ls Ds pre,
  length Ds = length Ls ->
  Forall (fun idx => - Z.of_nat (length ids) <= idx) Ls ->
  collect_results ids (pre ++ Ds) (length pre) Ls =
  inr (map (to_result ids) (List.filter (in_ledger ids) (combine Ls Ds))).
Proof.
  induction Ls as [|idx Ls IH]; intros Ds pre Hlen Hlow; simpl; [reflexivity|].
  destruct Ds as [|dist Ds]; [discriminate|]. simpl in Hlen.
  inversion Hlow as [|? ? Hidx Hlow']; subst.
  assert (collect_results ids (pre ++ dist :: Ds) (S (length pre)) Ls =
          inr (map (to_result ids) (List.filter (in_ledger ids) (combine Ls Ds)))) as Hrest.
  { replace (pre ++ dist :: Ds) with ((pre ++ [dist]) ++ Ds)
      by (rewrite <- app_assoc; reflexivity).
    replace (S (length pre)) with (length (pre ++ [dist]))
      by (rewrite length_app; simpl; lia).
    apply IH; [lia | assumption]. }
  unfold in_ledger at 1. simpl.
  destruct (Z.ltb_spec idx (Z.of_nat (length ids))) as [Hlt|Hge].
  - rewrite (py_getitem_in_range ids idx VNone) by lia. simpl.
    rewrite py_getitem_middle. simpl. rewrite Hrest. simpl. reflexivity.
  - exact Hrest.
Qed.

End SearchFacts.

(** ** What the flat index returns *)

Module search_facts.
Import faiss faiss_spec faiss_facts.

Lemma combine_pad {A B C} (f : A -> B) (g : A -> C) (b : B) (c : C) n :
  forall l : list A,
  combine (map f l ++ repeat b n) (map g l ++ repeat c n) =
  map (fun a => (f a, g a)) l ++ repeat (b, c) n.
Proof.
  induction l as [|a l IH]; simpl.
  - induction n as [|n IHn]; simpl; [reflexivity | rewrite IHn; reflexivity].
  - rewrite IH. reflexivity.
Qed.

Lemma search_inv ix q k Ds Ls :
  search ix q k = inr (Ds, Ls) ->
  length q = d ix /\ 0 < k /\
  length Ds = length Ls /\ combine Ls Ds = neighbours ix q (Z.to_nat k).
Proof.
  unfold search. destruct (Nat.eqb_spec (length q) (d ix)) as [Hd|Hd]; simpl; [|discriminate].
  destruct (Z.leb_spec k 0) as [Hk|Hk]; [discriminate|].
  intros [= <- <-]. repeat split; try assumption.
  - rewrite !length_app, !length_map, !repeat_length. reflexivity.
  - unfold neighbours. apply combine_pad.
Qed.

Lemma search_ok ix q k :
  length q = d ix -> 0 < k ->
  exists Ds Ls, search ix q k = inr (Ds, Ls).
Proof.
  intros Hd Hk. unfold search.
  destruct (Nat.eqb_spec (length q) (d ix)) as [_|Hne]; [|contradiction]. simpl.
  destruct (Z.leb_spec k 0) as [Hle|_]; [lia|]. eauto.
Qed.

Lemma neighbours_length ix q k : length (neighbours ix q k) = k.
Proof.
  unfold neighbours. rewrite length_app, length_map, repeat_length, knn_length. lia.
Qed.

(** A label is [-1] (no neighbour) or the position of a stored vector,
    reported with its distance to the query. *)
Lemma neighbours_elem ix q k nb :
  nb ∈ neighbours ix q k ->
  nb = (-1, FLT_MAX) \/
  exists p, fst nb = Z.of_nat p /\ (p < ntotal ix)%nat /\ snd nb = distance_at ix q p.
Proof.
  unfold neighbours. rewrite elem_of_app. intros [Hin | Hin].
  - right. apply list_elem_of_In, in_map_iff in Hin. destruct Hin as [h [<- Hh]].
    apply list_elem_of_In, knn_elem, all_hits_elem in Hh.
    exists (fst h). simpl. tauto.
  - left. apply list_elem_of_In, repeat_spec in Hin. exact Hin.
Qed.

Lemma neighbours_labels_low ix q k :
  Forall (fun nb => -1 <= fst nb) (neighbours ix q k).
Proof.
  apply Forall_forall. intros nb Hin.
  destruct (neighbours_elem _ _ _ _ Hin) as [-> | [p [-> _]]]; simpl; lia.
Qed.

(** With at most [ntotal] neighbours requested nothing is padded. *)
Lemma neighbours_full ix q k :
  (k <= ntotal ix)%nat ->
  neighbours ix q k = map (fun h : hit => (Z.of_nat (fst h), snd h)) (knn ix q k).
Proof.
  intros Hk. unfold neighbours. rewrite knn_length.
  replace (k - Nat.min k (ntotal ix))%nat with 0%nat by lia.
  simpl. apply app_nil_r.
Qed.

End search_facts.

Section StoreSearchFacts.

Context `{model : SentenceTransformer}.
Import search_facts.

(** [search] on a store that has an index and a non-empty ledger. *)
Lemma search_unfold s ix query top_k :
  index s = Some ix ->
  trial_ids s <> [] ->
  search s query top_k =
  match faiss.search ix (encode query)
          (Z.min top_k (Z.of_nat (length (trial_ids s)))) with
  | inl e => inl e
  | inr (Ds, Ls) =>
    inr (map (to_result (trial_ids s))
           (List.filter (in_ledger (trial_ids s)) (combine Ls Ds)))
  end.
Proof.
  intros Hix Hne. unfold search. rewrite Hix.
  destruct (Nat.eqb_spec (length (trial_ids s)) 0) as [H0|Hpos].
  - destruct (trial_ids s); [contradiction | discriminate].
  - destruct (faiss.search ix (encode query) _) as [e|[Ds Ls]] eqn:E; simpl; [reflexivity|].
    apply search_inv in E. destruct E as (_ & _ & Hlen & Hcomb).
    apply (collect_results_spec (trial_ids s) Ls Ds []); [exact Hlen|].
    pose proof (neighbours_labels_low ix (encode query)
                  (Z.to_nat (Z.min top_k (Z.of_nat (length (trial_ids s)))))) as Hlow.
    rewrite <- Hcomb in Hlow.
    assert (length (trial_ids s) > 0)%nat as Hlen_ids by lia.
    clear - Hlow Hlen Hlen_ids. revert Ds Hlen Hlow.
    induction Ls as [|idx Ls IH]; intros Ds Hlen Hlow; [constructor|].
    destruct Ds as [|dist Ds]; [discriminate|]. simpl in *.
    inversion Hlow; subst. constructor; [simpl in *; lia|].
    apply (IH Ds); [lia | assumption].
Qed.

End StoreSearchFacts.

(** ** Loading a persisted pair *)

Section LoadFacts.

Context `{model : SentenceTransformer}.

Lemma load_inv s path w s' :
  load s path w = (s', inr tt) ->
  exists ix ids,
    files w !! os_path_join path "index.faiss" = Some (FaissFile ix) /\
    files w !! os_path_join path "trial_ids.json" = Some (JsonFile ids) /\
    s' = set_trial_ids ids (set_index (Some ix) s).
Proof.
  unfold load, read_index, json_load.
  destruct (files w !! os_path_join path "index.faiss") as [[ix| |]|]; try discriminate.
  destruct (files w !! os_path_join path "trial_ids.json") as [[|ids|]|]; try discriminate.
  intros [= <-]. eauto.
Qed.

Lemma load_ok s path w ix ids :
  files w !! os_path_join path "index.faiss" = Some (FaissFile ix) ->
  files w !! os_path_join path "trial_ids.json" = Some (JsonFile ids) ->
  load s path w = (set_trial_ids ids (set_index (Some ix) s), inr tt).
Proof.
  intros Hix Hids. unfold load, read_index, json_load. rewrite Hix, Hids. reflexivity.
Qed.

End LoadFacts.

(** C1 fails on the code: with two vectors and a one-entry ledger persisted at
    the same location, [load] completes and hands back a store holding two
    vectors and one identifier. *)
Lemma load_accepts_mismatch :
  (let s := fst (load (@new_store Sample.length_model) "vector_store" Sample.mismatched_disk) in
   snd (load (@new_store Sample.length_model) "vector_store" Sample.mismatched_disk) = inr tt /\
   index_size s = 2%nat /\ length (trial_ids s) = 1%nat) /\
  ~ load_rejects_mismatch.
Proof.
  split; [vm_compute; auto|].
  intros Hclaim.
  destruct (Hclaim Sample.length_model (@new_store Sample.length_model) "vector_store" Sample.mismatched_disk
              Sample.two_vectors [VStr "test-1"]) as [e He].
  - reflexivity.
  - reflexivity.
  - vm_compute. discriminate.
  - vm_compute in He. discriminate.
Qed.

(** C1, amended: [load] compares no lengths. Whenever both persisted parts are
    readable it completes and installs exactly the persisted index and the
    persisted ledger, whatever their lengths. *)
Theorem load_installs_both_parts `{model : SentenceTransformer} s path w ix ids :
  files w !! os_path_join path "index.faiss" = Some (FaissFile ix) ->
  files w !! os_path_join path "trial_ids.json" = Some (JsonFile ids) ->
  load s path w = (set_trial_ids ids (set_index (Some ix) s), inr tt) /\
  index_size (fst (load s path w)) = faiss.ntotal ix /\
  trial_ids (fst (load s path w)) = ids.
Proof.
  intros Hix Hids. rewrite (load_ok s path w ix ids Hix Hids). auto.
Qed.

Lemma load_installs_both_parts_witness :
  load (@new_store Sample.length_model) "vector_store" Sample.mismatched_disk =
    (set_trial_ids [VStr "test-1"]
       (set_index (Some Sample.two_vectors) (@new_store Sample.length_model)), inr tt) /\
  index_size (fst (load (@new_store Sample.length_model) "vector_store" Sample.mismatched_disk)) = 2%nat /\
  trial_ids (fst (load (@new_store Sample.length_model) "vector_store" Sample.mismatched_disk)) = [VStr "test-1"].
Proof.
  apply (@load_installs_both_parts Sample.length_model
           (@new_store Sample.length_model) "vector_store"
           Sample.mismatched_disk Sample.two_vectors [VStr "test-1"]);
    reflexivity.
Defined.

(** ** Querying *)

Section QueryFacts.

Context `{model : SentenceTransformer}.
Import faiss_spec search_facts.

Lemma faiss_search_nonpositive ix q k : k <= 0 -> fails (faiss.search ix q k).
Proof.
  intros Hk. unfold faiss.search.
  destruct (negb _); [eexists; reflexivity|].
  destruct (Z.leb_spec k 0); [eexists; reflexivity | lia].
Qed.

Lemma faiss_search_error ix q k e :
  faiss.search ix q k = inl e -> exists c, e = AssertionError c.
Proof.
  unfold faiss.search. destruct (negb _); [intros [= <-]; eauto|].
  destruct (k <=? 0); [intros [= <-]; eauto | discriminate].
Qed.

Lemma store_neighbours_empty_ledger s query top_k :
  trial_ids s = [] -> store_neighbours s query top_k = [].
Proof.
  intros Hids. unfold store_neighbours. destruct (index s) as [ix|]; [|reflexivity].
  destruct (faiss_search_nonpositive ix (encode query)
              (Z.min top_k (Z.of_nat (length (trial_ids s))))) as [e He].
  - rewrite Hids. simpl. lia.
  - rewrite He. reflexivity.
Qed.

Lemma search_empty_ledger s ix query top_k :
  index s = Some ix -> trial_ids s = [] -> search s query top_k = inr [].
Proof. intros Hix Hids. unfold search. rewrite Hix, Hids. reflexivity. Qed.

(** The results of a completed [search] are the in-ledger neighbours, in
    order, each turned into a result. *)
Lemma search_results s query top_k rs :
  search s query top_k = inr rs ->
  rs = map (to_result (trial_ids s))
         (List.filter (in_ledger (trial_ids s)) (store_neighbours s query top_k)).
Proof.
  intros Hs. destruct (index s) as [ix|] eqn:Hix.
  - destruct (trial_ids s) as [|id ids] eqn:Hids.
    + rewrite store_neighbours_empty_ledger by exact Hids.
      rewrite (search_empty_ledger s ix) in Hs by assumption.
      injection Hs as <-. reflexivity.
    + rewrite <- Hids in *.
      rewrite (search_unfold s ix) in Hs by (try assumption; rewrite Hids; discriminate).
      unfold store_neighbours. rewrite Hix.
      destruct (faiss.search ix (encode query) _) as [e|[dists labels]]; [discriminate|].
      injection Hs as <-. reflexivity.
  - unfold search in Hs. rewrite Hix in Hs. discriminate.
Qed.

Lemma store_neighbours_elem s query top_k nb :
  nb ∈ store_neighbours s query top_k ->
  nb = (-1, faiss.FLT_MAX) \/
  exists ix p, index s = Some ix /\ fst nb = Z.of_nat p /\
    (p < faiss.ntotal ix)%nat /\ snd nb = distance_at ix (encode query) p.
Proof.
  unfold store_neighbours. destruct (index s) as [ix|]; [|inversion 1].
  destruct (faiss.search ix (encode query) _) as [e|[dists labels]] eqn:E; [inversion 1|].
  apply search_inv in E. destruct E as (_ & _ & _ & ->).
  intros Hin. apply neighbours_elem in Hin.
  destruct Hin as [-> | (p & Hp)]; [left; reflexivity | right; eauto].
Qed.

Lemma Forall2_map_self {A B} (P : B -> A -> Prop) (f : A -> B) (l : list A) :
  (forall a, a ∈ l -> P (f a) a) -> Forall2 P (map f l) l.
Proof.
  induction l as [|a l IH]; intros H; simpl; constructor.
  - apply H. left.
  - apply IH. intros b Hb. apply H. right. exact Hb.
Qed.

Lemma elem_of_filter_bool {A} (f : A -> bool) (l : list A) a :
  a ∈ List.filter f l <-> a ∈ l /\ f a = true.
Proof. rewrite !list_elem_of_In. apply filter_In. Qed.

End QueryFacts.

(** C6 fails on the code: the emptiness test of [search] reads the ledger, not
    the index. With an index holding no vector and a ledger of length 1, the
    index pads its answer and the padding is returned as a result. *)
Lemma empty_index_query_returns_padding :
  (index Sample.ledger_without_vectors = Some (faiss.create 2) /\
   faiss.ntotal (faiss.create 2) = 0%nat /\
   @search Sample.length_model Sample.ledger_without_vectors "obesity" 1 =
     inr [{| trial_id := VStr "test-1";
             similarity_score := (1 - faiss.FLT_MAX / 10)%Q |}]) /\
  ~ empty_index_query_is_empty.
Proof.
  split; [repeat split|].
  intros Hclaim.
  specialize (Hclaim Sample.length_model Sample.ledger_without_vectors
                (faiss.create 2) "obesity" 1 eq_refl eq_refl).
  discriminate Hclaim.
Qed.

(** C6, amended: for every query text and every [top_k], a store whose index
    holds zero vectors and whose ledger has the same length (so is empty too)
    answers with the empty sequence and raises nothing. *)
Theorem empty_store_query_is_empty `{model : SentenceTransformer}
    s ix query top_k :
  index s = Some ix ->
  faiss.ntotal ix = 0%nat ->
  length (trial_ids s) = faiss.ntotal ix ->
  search s query top_k = inr [].
Proof.
  intros Hix H0 Hpar. apply (search_empty_ledger s ix); [exact Hix|].
  destruct (trial_ids s); [reflexivity | simpl in Hpar; lia].
Qed.

Lemma empty_store_query_is_empty_witness :
  @search Sample.length_model (create_index (@new_store Sample.length_model))
    "obesity" 5 = inr [].
Proof.
  apply (@empty_store_query_is_empty Sample.length_model
           (create_index (@new_store Sample.length_model))
           (faiss.create 2) "obesity" 5); reflexivity.
Defined.

(** C10: [search] never raises [IndexError], in any store state. A neighbour
    whose label is not below the ledger length is dropped; every result that
    is returned carries the ledger entry at an in-range position, which for a
    non-negative label is the label itself. *)
Theorem search_reads_ledger_in_range `{model : SentenceTransformer}
    s query top_k :
  search s query top_k <> inl IndexError /\
  forall rs, search s query top_k = inr rs ->
    Forall2
      (fun r nb =>
         (ledger_position (trial_ids s) (fst nb) < length (trial_ids s))%nat /\
         trial_ids s !! ledger_position (trial_ids s) (fst nb) = Some (trial_id r) /\
         (0 <= fst nb -> ledger_position (trial_ids s) (fst nb) = Z.to_nat (fst nb)))
      rs
      (List.filter (in_ledger (trial_ids s)) (store_neighbours s query top_k)).
Proof.
  split.
  - destruct (index s) as [ix|] eqn:Hix.
    + destruct (trial_ids s) as [|id ids] eqn:Hids.
      * rewrite (search_empty_ledger s ix) by assumption. discriminate.
      * rewrite (search_unfold s ix) by (try assumption; rewrite Hids; discriminate).
        destruct (faiss.search ix (encode query) _) as [e|[dists labels]] eqn:E;
          [|discriminate].
        apply faiss_search_error in E. destruct E as [c ->]. discriminate.
    + unfold search. rewrite Hix. discriminate.
  - intros rs Hs. rewrite (search_results _ _ _ _ Hs).
    apply Forall2_map_self. intros [idx dist] Hin.
    apply elem_of_filter_bool in Hin. destruct Hin as [Hin Hguard].
    unfold in_ledger in Hguard. simpl in *. apply Z.ltb_lt in Hguard.
    assert (-1 <= idx) as Hlow.
    { apply store_neighbours_elem in Hin.
      destruct Hin as [[= -> _] | (ix & p & _ & Hp & _)]; simpl in *; lia. }
    assert (0 < length (trial_ids s))%nat as Hne.
    { destruct (trial_ids s) eqn:Hids; [|simpl; lia].
      rewrite store_neighbours_empty_ledger in Hin by exact Hids. inversion Hin. }
    assert (ledger_position (trial_ids s) idx < length (trial_ids s))%nat as Hpos.
    { unfold ledger_position. destruct (Z.ltb_spec idx 0); lia. }
    split; [exact Hpos|]. split.
    + destruct (trial_ids s !! ledger_position (trial_ids s) idx) as [v|] eqn:E.
      * apply nth_lookup_Some with (d := VNone) in E. simpl. congruence.
      * apply lookup_ge_None in E. lia.
    + intros Hnn. unfold ledger_position. destruct (Z.ltb_spec idx 0); [lia | reflexivity].
Qed.

Lemma search_reads_ledger_in_range_witness :
  @search Sample.length_model Sample.more_vectors_than_ids "obesity" 5 = inr [] /\
  @search Sample.length_model Sample.more_vectors_than_ids "abc" 5 <> inl IndexError /\
  Forall2
    (fun r nb =>
       (ledger_position [VStr "test-1"] (fst nb) < 1)%nat /\
       [VStr "test-1"] !! ledger_position [VStr "test-1"] (fst nb) = Some (trial_id r) /\
       (0 <= fst nb -> ledger_position [VStr "test-1"] (fst nb) = Z.to_nat (fst nb)))
    [{| trial_id := VStr "test-1"; similarity_score := (1 - 0 / 10)%Q |}]
    (List.filter (in_ledger [VStr "test-1"])
       (@store_neighbours Sample.length_model Sample.more_vectors_than_ids "abc" 5)).
Proof.
  split; [reflexivity|].
  pose proof (@search_reads_ledger_in_range Sample.length_model
                Sample.more_vectors_than_ids "abc" 5) as [Hne Hall].
  split; [exact Hne|].
  apply (Hall [{| trial_id := VStr "test-1"; similarity_score := (1 - 0 / 10)%Q |}]).
  reflexivity.
Defined.



(** ** Ranking of the results *)

Section RankingFacts.

Context `{model : SentenceTransformer}.
Import faiss faiss_spec faiss_facts search_facts.





Lemma filter_keeps_all {A} (f : A -> bool) (l : list A) :
  Forall (fun a => f a = true) l -> List.filter f l = l.
Proof.
  induction 1 as [|a l Ha _ IH]; simpl; [reflexivity|]. rewrite Ha, IH. reflexivity.
Qed.

Lemma knn_distance ix q k :
  Forall (fun h : hit => (fst h < ntotal ix)%nat /\ snd h = distance_at ix q (fst h))
    (knn ix q k).
Proof.
  apply Forall_forall. intros h Hh. apply all_hits_elem, (knn_elem _ _ k), Hh.
Qed.

End RankingFacts.




(** ** Insertion keeps the pair in step *)

Section InsertionFacts.

Context `{model : SentenceTransformer} `{fmt : PyFormat}.

Lemma collect_texts_length trials texts ids :
  collect_texts trials = inr (texts, ids) ->
  length texts = length trials /\ length ids = length trials.
Proof.
  revert texts ids. induction trials as [|t trials IH]; simpl; intros texts ids H.
  - injection H as <- <-. auto.
  - destruct (subject_text t) as [e|text]; [discriminate|]. simpl in H.
    destruct (dict_getitem t "id") as [e|id]; [discriminate|]. simpl in H.
    destruct (collect_texts trials) as [e|[texts' ids']]; [discriminate|]. simpl in H.
    injection H as <- <-. destruct (IH texts' ids' eq_refl). simpl. lia.
Qed.

Lemma faiss_add_inv ix x ix' :
  faiss.add ix x = inr ix' ->
  faiss.d ix' = faiss.d ix /\ faiss.xb ix' = faiss.xb ix ++ x.
Proof.
  unfold faiss.add. destruct x as [|v x]; [discriminate|].
  destruct (forallb _ _); [|discriminate]. intros [= <-]. auto.
Qed.

Lemma faiss_add_mismatch ix x :
  Exists (fun v => length v <> faiss.d ix) x ->
  faiss.add ix x = inl (AssertionError DimensionMismatch).
Proof.
  intros Hex. unfold faiss.add. destruct x as [|v x]; [inversion Hex|].
  destruct (forallb _ (v :: x)) eqn:E; [|reflexivity].
  exfalso. rewrite forallb_forall in E. apply Exists_exists in Hex.
  destruct Hex as [u [Hu Hne]]. apply list_elem_of_In, E, Nat.eqb_eq in Hu. contradiction.
Qed.

Lemma add_trials_unfold s trials texts ids :
  collect_texts trials = inr (texts, ids) ->
  add_trials s trials =
  match faiss.add (target_index s) (map encode texts) with
  | inl e => (set_index (Some (target_index s)) s, inl e)
  | inr ix' =>
    (set_trial_ids (trial_ids s ++ ids) (set_index (Some ix') s), inr tt)
  end.
Proof.
  intros Hc. unfold add_trials, target_index. rewrite Hc.
  destruct s as [[ix|] ledger dim]; simpl;
    destruct (faiss.add _ _); reflexivity.
Qed.

Lemma target_index_size s : faiss.ntotal (target_index s) = index_size s.
Proof. unfold target_index, index_size. destruct (index s); reflexivity. Qed.

Lemma add_trials_parity s trials : parity s -> parity (fst (add_trials s trials)).
Proof.
  unfold parity. intros Hpar.
  destruct (collect_texts trials) as [e|[texts ids]] eqn:Hc.
  - unfold add_trials. rewrite Hc. exact Hpar.
  - rewrite (add_trials_unfold _ _ _ _ Hc).
    destruct (collect_texts_length _ _ _ Hc) as [Ht Hi].
    destruct (faiss.add (target_index s) (map encode texts)) as [e|ix'] eqn:Ha; simpl.
    + unfold index_size. simpl. rewrite target_index_size. exact Hpar.
    + apply faiss_add_inv in Ha. destruct Ha as [_ Hxb].
      unfold index_size, faiss.ntotal. simpl.
      rewrite Hxb, !length_app, length_map.
      fold (faiss.ntotal (target_index s)). rewrite target_index_size. lia.
Qed.

End InsertionFacts.

(** C2 fails on the code: [load] completes on a persisted pair of unequal
    lengths and installs it as it is. *)
Lemma load_breaks_parity :
  (parity (@new_store Sample.length_model) /\
   snd (load (@new_store Sample.length_model) "vector_store" Sample.mismatched_disk) = inr tt /\
   ~ parity (fst (load (@new_store Sample.length_model) "vector_store"
                    Sample.mismatched_disk))) /\
  ~ parity_after_every_operation.
Proof.
  assert (~ parity (fst (load (@new_store Sample.length_model) "vector_store"
                           Sample.mismatched_disk))) as Hbad.
  { vm_compute. discriminate. }
  split; [repeat split; [exact Hbad]|].
  intros Hclaim.
  destruct (Hclaim Sample.length_model Sample.plain_format
              (@new_store Sample.length_model) eq_refl) as (_ & _ & Hload).
  apply Hbad. apply (Hload "vector_store" Sample.mismatched_disk). reflexivity.
Qed.

(** C2, amended: starting from a store in which index and ledger are equally
    long, [add_trials] keeps them so whether it completes or raises, and so
    does the insertion of [create_trial] whatever becomes of the [save] that
    follows it; a completed [load] installs the two persisted parts, so that
    the loaded pair is in step exactly when the persisted vector count equals
    the persisted ledger length. *)
Theorem parity_preserved_by_insertion `{model : SentenceTransformer}
    `{fmt : PyFormat} s :
  parity s ->
  (forall trials, parity (fst (add_trials s trials))) /\
  (forall trial_dict acknowledged w,
     exists s',
       vector_store (fst (create_trial trial_dict acknowledged
                            {| vector_store := Some s; disk := w |})) = Some s' /\
       parity s') /\
  (forall path w s',
     load s path w = (s', inr tt) ->
     exists ix ids,
       files w !! os_path_join path "index.faiss" = Some (FaissFile ix) /\
       files w !! os_path_join path "trial_ids.json" = Some (JsonFile ids) /\
       (parity s' <-> faiss.ntotal ix = length ids)).
Proof.
  intros Hpar. split; [|split].
  - intros trials. apply add_trials_parity, Hpar.
  - intros trial_dict [|] w; unfold create_trial; simpl; [|eauto].
    pose proof (add_trials_parity s [trial_dict] Hpar) as Hp.
    destruct (add_trials s [trial_dict]) as [vs1 [e|[]]]; simpl in *.
    + eauto.
    + destruct (save vs1 "vector_store" w) as [w' r]. simpl. eauto.
  - intros path w s' Hl. apply load_inv in Hl.
    destruct Hl as (ix & ids & Hix & Hids & ->).
    exists ix, ids. repeat split; trivial.
Qed.

Lemma parity_preserved_by_insertion_witness :
  parity (fst (@add_trials Sample.length_model Sample.plain_format
                 (@new_store Sample.length_model)
                 [Sample.mk_trial "test-1" "Obesity Treatment Trial"])).
Proof.
  apply (proj1 (@parity_preserved_by_insertion Sample.length_model
                  Sample.plain_format (@new_store Sample.length_model) eq_refl)).
Defined.

(** C8: when some vector of the batch has a length other than the dimension
    the index is bound to, [add_trials] fails on the index's dimension
    assertion, and neither the number of vectors nor the ledger has changed:
    the ledger is extended only after the index has accepted the batch. *)
Theorem add_trials_dimension_mismatch `{model : SentenceTransformer}
    `{fmt : PyFormat} s trials texts ids :
  collect_texts trials = inr (texts, ids) ->
  Exists (fun text => length (encode text) <> bound_dimension s) texts ->
  snd (add_trials s trials) = inl (AssertionError DimensionMismatch) /\
  index_size (fst (add_trials s trials)) = index_size s /\
  trial_ids (fst (add_trials s trials)) = trial_ids s.
Proof.
  intros Hc Hex. rewrite (add_trials_unfold _ _ _ _ Hc).
  rewrite faiss_add_mismatch.
  - simpl. unfold index_size at 1. simpl. rewrite target_index_size. auto.
  - apply Exists_exists in Hex. destruct Hex as [text [Hin Hne]].
    apply Exists_exists. exists (encode text). split.
    + apply list_elem_of_In, in_map, list_elem_of_In, Hin.
    + unfold bound_dimension in Hne. unfold target_index.
      destruct (index s); exact Hne.
Qed.

Lemma add_trials_dimension_mismatch_witness :
  snd (@add_trials Sample.length_model Sample.plain_format Sample.bound_to_three
         [Sample.mk_trial "test-1" "Obesity Treatment Trial"])
    = inl (AssertionError DimensionMismatch) /\
  index_size (fst (@add_trials Sample.length_model Sample.plain_format
                     Sample.bound_to_three
                     [Sample.mk_trial "test-1" "Obesity Treatment Trial"])) = 0%nat /\
  trial_ids (fst (@add_trials Sample.length_model Sample.plain_format
                    Sample.bound_to_three
                    [Sample.mk_trial "test-1" "Obesity Treatment Trial"])) = [].
Proof.
  apply (@add_trials_dimension_mismatch Sample.length_model Sample.plain_format
           Sample.bound_to_three
           [Sample.mk_trial "test-1" "Obesity Treatment Trial"]
           ["Obesity Treatment Trial  "] [VStr "test-1"]).
  - vm_compute. reflexivity.
  - constructor. vm_compute. discriminate.
Defined.

(** ** Saving and loading *)

Section PersistenceFacts.

Context `{model : SentenceTransformer}.

Lemma os_path_join_inj path a b :
  os_path_join path a = os_path_join path b -> a = b.
Proof.
  unfold os_path_join. destruct path as [|c path]; [trivial|].
  destruct (ends_with_slash (String c path)); intros H.
  - apply String.app_inj in H. exact H.
  - apply String.app_inj in H. apply (String.app_inj "/") in H. exact H.
Qed.

Lemma index_ledger_paths_differ path :
  os_path_join path "index.faiss" <> os_path_join path "trial_ids.json".
Proof. intros H. apply os_path_join_inj in H. discriminate. Qed.

Lemma makedirs_files path w w' r :
  makedirs path w = (w', r) -> files w' = files w /\ readonly w' = readonly w.
Proof.
  unfold makedirs. destruct (bool_decide _); [intros [= <- _]; auto|].
  destruct (files w !! path); intros [= <- _]; auto.
Qed.

(** Closes a case in which the operation raised, the files being those of
    the disk whose files [Hf] gives. *)
Ltac raised_with Hf :=
  simpl; rewrite ?Hf; split; [eexists; reflexivity | reflexivity].

(** The outcomes of [save], step by step. *)
Lemma save_cases s path w :
  let w' := fst (save s path w) in
  let ip := os_path_join path "index.faiss" in
  let lp := os_path_join path "trial_ids.json" in
  (fails (snd (save s path w)) /\ files w' = files w) \/
  (exists ix, index s = Some ix /\
     ((fails (snd (save s path w)) /\ files w' = <[ip := FaissFile ix]> (files w)) \/
      (fails (snd (save s path w)) /\
       files w' = <[lp := Truncated]> (<[ip := FaissFile ix]> (files w))) \/
      (snd (save s path w) = inr tt /\
       files w' = <[lp := JsonFile (trial_ids s)]>
                    (<[lp := Truncated]> (<[ip := FaissFile ix]> (files w)))))).
Proof.
  unfold save, and_then.
  destruct (makedirs path w) as [w1 [e|[]]] eqn:Hm;
    destruct (makedirs_files _ _ _ _ Hm) as [Hf Hr].
  { left. raised_with Hf. }
  unfold write_index. destruct (index s) as [ix|].
  2:{ left. raised_with Hf. }
  destruct (bool_decide (os_path_join path "index.faiss" ∈ readonly w1)).
  { left. raised_with Hf. }
  right. exists ix. split; [reflexivity|].
  unfold open_w. simpl.
  destruct (bool_decide (os_path_join path "trial_ids.json" ∈ readonly w1)).
  { left. raised_with Hf. }
  right. unfold json_dump. simpl.
  destruct (forallb json_serializable (trial_ids s)); simpl.
  - right. rewrite Hf. auto.
  - left. raised_with Hf.
Qed.

Lemma save_inv s path w w' :
  save s path w = (w', inr tt) ->
  artifact w' path = artifact_of s /\ exists ix, index s = Some ix.
Proof.
  intros Hs. pose proof (save_cases s path w) as Hc. rewrite Hs in Hc. simpl in Hc.
  destruct Hc as [[[e He] _] | (ix & Hix & [[[e He] _] | [[[e He] _] | [_ Hf]]])];
    try discriminate.
  split; [|eauto]. unfold artifact, artifact_of. rewrite Hf, Hix. simpl. f_equal.
  - rewrite !lookup_insert_ne by (apply not_eq_sym, index_ledger_paths_differ).
    apply lookup_insert_eq.
  - apply lookup_insert_eq.
Qed.

(** [save] completes on a store that has an index and a serialisable ledger,
    when the location is not taken by a file and both files can be written. *)
Lemma save_completes s path w ix :
  index s = Some ix ->
  path <> "" ->
  files w !! path = None ->
  os_path_join path "index.faiss" ∉ readonly w ->
  os_path_join path "trial_ids.json" ∉ readonly w ->
  forallb json_serializable (trial_ids s) = true ->
  snd (save s path w) = inr tt.
Proof.
  intros Hix Hpath Hfree Hi Hl Hjson. unfold save, and_then, makedirs.
  rewrite bool_decide_eq_false_2 by exact Hpath. rewrite Hfree, Hix.
  unfold write_index. simpl. rewrite bool_decide_eq_false_2 by exact Hi.
  unfold open_w. simpl. rewrite bool_decide_eq_false_2 by exact Hl.
  unfold json_dump. rewrite Hjson. reflexivity.
Qed.

Lemma search_ext s t :
  index s = index t -> trial_ids s = trial_ids t ->
  forall query top_k, search s query top_k = search t query top_k.
Proof. intros Hi Hl query top_k. unfold search. rewrite Hi, Hl. reflexivity. Qed.

End PersistenceFacts.

(** C4: after a [save] that completes, a [load] from the same location, into
    any store built on the same encoder, completes and yields the index and
    the ledger that were saved; every query then gets from the loaded store
    exactly what it gets from the saved one: same outcome, same identifiers,
    same order, same scores. *)
Theorem save_load_round_trip `{model : SentenceTransformer} s t path w w' :
  save s path w = (w', inr tt) ->
  snd (load t path w') = inr tt /\
  index (fst (load t path w')) = index s /\
  trial_ids (fst (load t path w')) = trial_ids s /\
  forall query top_k,
    search (fst (load t path w')) query top_k = search s query top_k.
Proof.
  intros Hs. apply save_inv in Hs. destruct Hs as [Hart [ix Hix]].
  unfold artifact, artifact_of in Hart. rewrite Hix in Hart. simpl in Hart.
  injection Hart as Hi Hl.
  rewrite (load_ok t path w' ix (trial_ids s) Hi Hl). simpl. repeat split; try (symmetry; exact Hix).
  intros query top_k. apply search_ext; simpl; [symmetry; exact Hix | reflexivity].
Qed.

Lemma save_load_round_trip_witness :
  snd (load (@new_store Sample.length_model) "vector_store"
         (fst (save Sample.two_trials "vector_store" Sample.empty_disk))) = inr tt /\
  index (fst (load (@new_store Sample.length_model) "vector_store"
                (fst (save Sample.two_trials "vector_store" Sample.empty_disk))))
    = index Sample.two_trials /\
  trial_ids (fst (load (@new_store Sample.length_model) "vector_store"
                    (fst (save Sample.two_trials "vector_store" Sample.empty_disk))))
    = trial_ids Sample.two_trials /\
  forall query top_k,
    @search Sample.length_model
      (fst (load (@new_store Sample.length_model) "vector_store"
              (fst (save Sample.two_trials "vector_store" Sample.empty_disk))))
      query top_k
    = @search Sample.length_model Sample.two_trials query top_k.
Proof.
  apply (@save_load_round_trip Sample.length_model Sample.two_trials
           (@new_store Sample.length_model) "vector_store" Sample.empty_disk
           (fst (save Sample.two_trials "vector_store" Sample.empty_disk))).
  vm_compute. reflexivity.
Defined.



(** ** Resolving the results *)

Section ResolutionFacts.

Context `{model : SentenceTransformer} `{fmt : PyFormat}.





End ResolutionFacts.



(** * Further properties of the code *)

(** ** Batches: order, missing keys *)

Section BatchFacts.

Context `{model : SentenceTransformer} `{fmt : PyFormat}.

Lemma collect_texts_app a b :
  collect_texts (a ++ b) =
  let* (ta, ia) := collect_texts a in
  let* (tb, ib) := collect_texts b in
  inr (ta ++ tb, ia ++ ib).
Proof.
  induction a as [|t a IH]; simpl.
  - destruct (collect_texts b) as [e|[tb ib]]; reflexivity.
  - destruct (subject_text t) as [e|text]; [reflexivity|]. simpl.
    destruct (dict_getitem t "id") as [e|id]; [reflexivity|]. simpl.
    rewrite IH. destruct (collect_texts a) as [e|[ta ia]]; [reflexivity|]. simpl.
    destruct (collect_texts b) as [e|[tb ib]]; reflexivity.
Qed.

Lemma faiss_add_ok ix x :
  x <> [] ->
  Forall (fun v => length v = faiss.d ix) x ->
  faiss.add ix x = inr {| faiss.d := faiss.d ix; faiss.xb := faiss.xb ix ++ x |}.
Proof.
  intros Hne Hall. unfold faiss.add. destruct x as [|v x]; [contradiction|].
  replace (forallb _ (v :: x)) with true; [reflexivity|].
  symmetry. apply forallb_forall. intros u Hu.
  rewrite Forall_forall in Hall. apply Nat.eqb_eq, Hall, list_elem_of_In, Hu.
Qed.

Lemma target_index_dimension s : faiss.d (target_index s) = bound_dimension s.
Proof. unfold target_index, bound_dimension. destruct (index s); reflexivity. Qed.

(** A batch with every key present and every embedding of the bound
    dimension is inserted whole. *)
Lemma add_trials_ok s trials texts ids :
  collect_texts trials = inr (texts, ids) ->
  trials <> [] ->
  Forall (fun text => length (encode text) = bound_dimension s) texts ->
  add_trials s trials =
  (set_trial_ids (trial_ids s ++ ids)
     (set_index
        (Some {| faiss.d := bound_dimension s;
                 faiss.xb := faiss.xb (target_index s) ++ map encode texts |}) s),
   inr tt).
Proof.
  intros Hc Hne Hdim. rewrite (add_trials_unfold _ _ _ _ Hc).
  rewrite faiss_add_ok.
  - rewrite target_index_dimension. reflexivity.
  - destruct (collect_texts_length _ _ _ Hc) as [Hlen _].
    destruct texts; [destruct trials; [contradiction | discriminate] | discriminate].
  - rewrite target_index_dimension. apply Forall_forall. intros v Hv.
    apply list_elem_of_In, in_map_iff in Hv. destruct Hv as [text [<- Hin]].
    rewrite Forall_forall in Hdim. apply Hdim, list_elem_of_In, Hin.
Qed.


Lemma add_trials_holds s held trials texts ids :
  holds s held ->
  collect_texts trials = inr (texts, ids) ->
  trials <> [] ->
  Forall (fun text => length (encode text) = bound_dimension s) texts ->
  exists s',
    add_trials s trials = (s', inr tt) /\
    holds s' (held ++ trials) /\
    trial_ids s' = trial_ids s ++ ids /\
    index_size s' = (index_size s + length trials)%nat /\
    bound_dimension s' = bound_dimension s.
Proof.
  intros (htexts & hids & Hhc & Hxb & Hids) Hc Hne Hdim.
  eexists. split; [apply (add_trials_ok s trials texts ids); assumption|].
  destruct (collect_texts_length _ _ _ Hc) as [Hlt Hli].
  split; [|split; [|split]].
  - exists (htexts ++ texts), (hids ++ ids). split; [|split].
    + rewrite collect_texts_app, Hhc. simpl. rewrite Hc. reflexivity.
    + simpl. rewrite Hxb, map_app. reflexivity.
    + simpl. rewrite Hids. reflexivity.
  - reflexivity.
  - unfold index_size at 1. simpl. unfold faiss.ntotal. simpl.
    rewrite length_app, length_map, Hlt.
    fold (faiss.ntotal (target_index s)). rewrite target_index_size. reflexivity.
  - reflexivity.
Qed.

Lemma subject_text_error t e :
  subject_text t = inl e ->
  exists key, missing_key t = Some key /\ e = KeyError key.
Proof.
  unfold subject_text, dict_getitem, missing_key, required_keys.
  destruct (t !! "title") as [v1|] eqn:E1; simpl.
  2:{ intros [= <-]. exists "title". simpl. rewrite ?E1. split; reflexivity. }
  destruct (t !! "description") as [v2|] eqn:E2; simpl.
  2:{ intros [= <-]. exists "description". simpl. rewrite ?E1, ?E2. split; reflexivity. }
  destruct (t !! "primary_outcome") as [v3|] eqn:E3; simpl; [discriminate|].
  intros [= <-]. exists "primary_outcome". simpl. rewrite ?E1, ?E2, ?E3. split; reflexivity.
Qed.

Lemma subject_text_ok t text :
  subject_text t = inr text ->
  is_Some (t !! "title") /\ is_Some (t !! "description") /\
  is_Some (t !! "primary_outcome").
Proof.
  unfold subject_text, dict_getitem.
  destruct (t !! "title"); [|discriminate]. simpl.
  destruct (t !! "description"); [|discriminate]. simpl.
  destruct (t !! "primary_outcome"); [|discriminate]. simpl. eauto.
Qed.

(** [collect_texts] stops at the first missing key, and completes when no key
    is missing. *)
Lemma collect_texts_first_missing trials :
  match first_missing_key trials with
  | Some key => collect_texts trials = inl (KeyError key)
  | None => exists texts ids, collect_texts trials = inr (texts, ids)
  end.
Proof.
  induction trials as [|t trials IH]; simpl; [eauto|].
  destruct (subject_text t) as [e|text] eqn:Et.
  - destruct (subject_text_error _ _ Et) as (key & -> & ->). reflexivity.
  - destruct (subject_text_ok _ _ Et) as ([v1 H1] & [v2 H2] & [v3 H3]).
    unfold missing_key, required_keys, dict_getitem. simpl. rewrite H1, H2, H3.
    destruct (t !! "id") as [id|] eqn:Eid; simpl; [|reflexivity].
    destruct (first_missing_key trials) as [key|].
    + rewrite IH. reflexivity.
    + destruct IH as (texts & ids & ->). simpl. eauto.
Qed.

End BatchFacts.



(** X2: when a trial of the batch lacks one of the keys [title],
    [description], [primary_outcome], [id], [add_trials] raises [KeyError] for
    the first key missing in the first such trial, and the store is exactly as
    it was: no trial of the batch has been added, and no index created. *)
Theorem add_trials_missing_key `{model : SentenceTransformer}
    `{fmt : PyFormat} s trials key :
  first_missing_key trials = Some key ->
  add_trials s trials = (s, inl (KeyError key)).
Proof.
  intros Hk. pose proof (collect_texts_first_missing trials) as Hc.
  rewrite Hk in Hc. unfold add_trials. rewrite Hc. reflexivity.
Qed.

Lemma add_trials_missing_key_witness :
  @add_trials Sample.length_model Sample.plain_format Sample.two_trials
    [Cases.obesity_trial; Cases.untitled]
  = (Sample.two_trials, inl (KeyError "title")).
Proof.
  apply (@add_trials_missing_key Sample.length_model Sample.plain_format
           Sample.two_trials [Cases.obesity_trial; Cases.untitled] "title").
  vm_compute. reflexivity.
Defined.

(** ** Queries: scores, counts, exact matches *)

Section ScoreFacts.

Context `{model : SentenceTransformer}.
Import faiss_spec faiss_facts search_facts.

Lemma Qsquare_nonneg (a : Q) : (0 <= a * a)%Q.
Proof.
  destruct (Qlt_le_dec a 0) as [Hneg|Hpos].
  - assert (a * a == (- a) * (- a))%Q as -> by ring.
    assert (0 <= - a)%Q as H.
    { apply Qlt_le_weak in Hneg. apply Qopp_le_compat in Hneg. exact Hneg. }
    apply Qmult_le_0_compat; exact H.
  - apply Qmult_le_0_compat; exact Hpos.
Qed.

Lemma fvec_L2sqr_nonneg x : forall y, (0 <= faiss.fvec_L2sqr x y)%Q.
Proof.
  induction x as [|a x IH]; intros [|b y]; simpl; try apply Qle_refl.
  assert (0 == 0 + 0)%Q as -> by reflexivity.
  apply Qplus_le_compat; [apply Qsquare_nonneg | apply IH].
Qed.

Lemma fvec_L2sqr_self x : (faiss.fvec_L2sqr x x == 0)%Q.
Proof.
  induction x as [|a x IH]; simpl; [reflexivity|]. rewrite IH. ring.
Qed.

Lemma score_at_most_one (dist : Q) : (0 <= dist)%Q -> (1 - dist / 10 <= 1)%Q.
Proof.
  intros H.
  assert (0 <= dist / 10)%Q as Ht
    by (unfold Qdiv; apply Qmult_le_0_compat; [exact H | discriminate]).
  apply Qle_trans with (1 - 0)%Q; [|apply Qle_lteq; right; ring].
  unfold Qminus. apply Qplus_le_r, Qopp_le_compat, Ht.
Qed.

Lemma store_neighbours_distance s query top_k nb :
  nb ∈ store_neighbours s query top_k -> (0 <= snd nb)%Q.
Proof.
  intros Hin. apply store_neighbours_elem in Hin.
  destruct Hin as [-> | (ix & p & _ & _ & _ & ->)].
  - simpl. discriminate.
  - apply fvec_L2sqr_nonneg.
Qed.

Lemma store_neighbours_length s query top_k :
  (length (store_neighbours s query top_k) <=
   Z.to_nat (Z.min top_k (Z.of_nat (length (trial_ids s)))))%nat.
Proof.
  unfold store_neighbours. destruct (index s) as [ix|]; [|simpl; lia].
  destruct (faiss.search ix (encode query) _) as [e|[dists labels]] eqn:E; [simpl; lia|].
  apply search_inv in E. destruct E as (_ & _ & _ & ->).
  rewrite neighbours_length. lia.
Qed.

Lemma filter_length_le {A} (f : A -> bool) (l : list A) :
  (length (List.filter f l) <= length l)%nat.
Proof.
  induction l as [|a l IH]; simpl; [lia|]. destruct (f a); simpl; lia.
Qed.

Lemma closer_refl (h : nat * Q) : closer h h.
Proof. right. split; [reflexivity | lia]. Qed.

(** With at least one neighbour requested from a non-empty index, the first
    neighbour is one that no hit of the index ranks before. *)
Lemma knn_head ix q k :
  (0 < k)%nat -> (0 < faiss.ntotal ix)%nat ->
  exists h rest,
    faiss.knn ix q k = h :: rest /\ h ∈ faiss.all_hits ix q /\
    forall h', h' ∈ faiss.all_hits ix q -> closer h h'.
Proof.
  intros Hk Hn. unfold faiss.knn.
  pose proof (sort_hits_sorted (faiss.all_hits ix q)) as Hs.
  pose proof (sort_hits_perm (faiss.all_hits ix q)) as Hp.
  destruct (faiss.sort_hits (faiss.all_hits ix q)) as [|h tl] eqn:E.
  - apply Permutation_length in Hp. rewrite all_hits_length in Hp. simpl in Hp. lia.
  - destruct k as [|k]; [lia|]. simpl. exists h, (take k tl).
    split; [reflexivity|]. split.
    + rewrite Hp. left.
    + intros h' Hin. rewrite Hp in Hin. apply elem_of_cons in Hin.
      destruct Hin as [-> | Hin]; [apply closer_refl|].
      inversion Hs as [|? ? _ Hall]; subst.
      rewrite Forall_forall in Hall. apply Hall, Hin.
Qed.

(** [search] on a store whose ledger is as long as its non-empty index. *)
Lemma search_under_parity s ix query top_k :
  index s = Some ix ->
  length (trial_ids s) = faiss.ntotal ix ->
  (0 < faiss.ntotal ix)%nat ->
  length (encode query) = faiss.d ix ->
  1 <= top_k ->
  search s query top_k =
  inr (map (result_at s ix query)
         (map fst (faiss.knn ix (encode query)
                     (Z.to_nat (Z.min top_k (Z.of_nat (length (trial_ids s)))))))).
Proof.
  intros Hix Hpar Hpos Hdim Hk.
  set (k := Z.to_nat (Z.min top_k (Z.of_nat (length (trial_ids s))))).
  assert (k <= faiss.ntotal ix)%nat as Hk_le by (unfold k; lia).
  pose proof (knn_distance ix (encode query) k) as Hknn.
  assert (trial_ids s <> []) as Hne
    by (destruct (trial_ids s); [simpl in Hpar; lia | discriminate]).
  rewrite (search_unfold s ix) by assumption.
  destruct (search_ok ix (encode query)
              (Z.min top_k (Z.of_nat (length (trial_ids s))))) as (dists & labels & E);
    [exact Hdim | lia |].
  rewrite E. apply search_inv in E. destruct E as (_ & _ & _ & ->).
  fold k. rewrite neighbours_full by exact Hk_le. f_equal.
  rewrite filter_keeps_all.
  - rewrite !map_map. apply map_ext_in. intros h Hh.
    rewrite Forall_forall in Hknn. apply list_elem_of_In, Hknn in Hh.
    destruct Hh as [_ Hd]. unfold to_result, result_at, ledger_position. simpl.
    destruct (Z.ltb_spec (Z.of_nat (fst h)) 0); [lia|].
    rewrite Nat2Z.id, Hd. reflexivity.
  - apply Forall_forall. intros nb Hnb.
    apply list_elem_of_In, in_map_iff in Hnb. destruct Hnb as [h [<- Hh]].
    rewrite Forall_forall in Hknn. apply list_elem_of_In, Hknn in Hh.
    unfold in_ledger. simpl. apply Z.ltb_lt. lia.
Qed.

(** A stored vector equal to the query's embedding puts a vector at distance
    zero first, the earliest one. *)
Lemma search_exact_match s ix query top_k p :
  index s = Some ix ->
  length (trial_ids s) = faiss.ntotal ix ->
  faiss.xb ix !! p = Some (encode query) ->
  length (encode query) = faiss.d ix ->
  1 <= top_k ->
  exists r rs p0,
    search s query top_k = inr (r :: rs) /\
    (similarity_score r == 1)%Q /\
    (p0 <= p)%nat /\
    trial_ids s !! p0 = Some (trial_id r) /\
    (distance_at ix (encode query) p0 == 0)%Q.
Proof.
  intros Hix Hpar Hp Hdim Hk.
  assert (p < faiss.ntotal ix)%nat as Hlt by (eapply lookup_lt_Some, Hp).
  assert (0 < faiss.ntotal ix)%nat as Hpos by lia.
  rewrite (search_under_parity s ix) by assumption.
  destruct (knn_head ix (encode query)
              (Z.to_nat (Z.min top_k (Z.of_nat (length (trial_ids s))))))
    as (h & rest & -> & Hh & Hbest); [lia | exact Hpos |].
  assert (distance_at ix (encode query) p == 0)%Q as Hzero.
  { unfold distance_at. apply nth_lookup_Some with (d := []) in Hp.
    rewrite Hp. apply fvec_L2sqr_self. }
  assert ((p, distance_at ix (encode query) p) ∈ faiss.all_hits ix (encode query)) as Hin
    by (apply all_hits_elem; simpl; auto).
  apply all_hits_elem in Hh. destruct Hh as [Hh_lt Hh_d].
  assert ((snd h == 0)%Q /\ (fst h <= p)%nat) as [Hd0 Hle].
  { destruct (Hbest _ Hin) as [Hlt' | [Heq Hle]]; simpl in *.
    - exfalso. rewrite Hzero in Hlt'. rewrite Hh_d in Hlt'.
      apply (Qlt_not_le _ _ Hlt'). apply fvec_L2sqr_nonneg.
    - split; [rewrite Heq; exact Hzero | exact Hle]. }
  eexists _, _, (fst h). split; [simpl; reflexivity|].
  split; [|split; [exact Hle | split]].
  - change (1 - distance_at ix (encode query) (fst h) / 10 == 1)%Q.
    rewrite <- Hh_d, Hd0. vm_compute. reflexivity.
  - change (trial_ids s !! fst h = Some (nth (fst h) (trial_ids s) VNone)).
    destruct (trial_ids s !! fst h) as [v|] eqn:E.
    + apply nth_lookup_Some with (d := VNone) in E. congruence.
    + apply lookup_ge_None in E. lia.
  - rewrite <- Hh_d. exact Hd0.
Qed.

End ScoreFacts.

(** X3: no result of [search] has a similarity score above 1, whatever the
    store, the query and [top_k]: the score is [1 - distance / 10] of a
    distance that is never negative. *)
Theorem similarity_score_at_most_one `{model : SentenceTransformer}
    s query top_k rs :
  search s query top_k = inr rs ->
  Forall (fun r => (similarity_score r <= 1)%Q) rs.
Proof.
  intros Hs. rewrite (search_results _ _ _ _ Hs).
  apply Forall_forall. intros r Hr.
  apply list_elem_of_In, in_map_iff in Hr. destruct Hr as [nb [<- Hnb]].
  apply list_elem_of_In, elem_of_filter_bool in Hnb. destruct Hnb as [Hnb _].
  simpl. apply score_at_most_one. eapply store_neighbours_distance, Hnb.
Qed.

Lemma similarity_score_at_most_one_witness :
  Forall (fun r => (similarity_score r <= 1)%Q)
    (match @search Sample.length_model Sample.two_trials "obesity" 2 with
     | inr rs => rs
     | inl _ => []
     end).
Proof.
  apply (@similarity_score_at_most_one Sample.length_model Sample.two_trials
           "obesity" 2).
  vm_compute. reflexivity.
Defined.

(** X4: [search] never returns more results than [top_k] asks for, nor more
    than the ledger has identifiers, in any store state. *)
Theorem search_returns_at_most_top_k `{model : SentenceTransformer}
    s query top_k rs :
  search s query top_k = inr rs ->
  Z.of_nat (length rs) <= Z.max 0 top_k /\
  (length rs <= length (trial_ids s))%nat.
Proof.
  intros Hs. rewrite (search_results _ _ _ _ Hs). rewrite length_map.
  pose proof (filter_length_le (in_ledger (trial_ids s))
                (store_neighbours s query top_k)) as Hf.
  pose proof (store_neighbours_length s query top_k) as Hn.
  split; lia.
Qed.

Lemma search_returns_at_most_top_k_witness :
  Z.of_nat (length (match @search Sample.length_model Sample.two_trials "obesity" 1 with
                    | inr rs => rs
                    | inl _ => []
                    end)) <= Z.max 0 1 /\
  (length (match @search Sample.length_model Sample.two_trials "obesity" 1 with
           | inr rs => rs
           | inl _ => []
           end) <= length (trial_ids Sample.two_trials))%nat.
Proof.
  apply (@search_returns_at_most_top_k Sample.length_model Sample.two_trials
           "obesity" 1).
  vm_compute. reflexivity.
Defined.



(** ** Cold start, refresh, lazy initialisation *)

Section SynchronizerFacts.

Context `{model : SentenceTransformer} `{fmt : PyFormat}.

Lemma stringify_id_lookup t t' key :
  stringify_id t = inr t' -> key <> "_id" -> t' !! key = t !! key.
Proof.
  unfold stringify_id, dict_getitem. destruct (t !! "_id") as [oid|]; [|discriminate].
  simpl. intros [= <-] Hne. apply lookup_insert_ne. congruence.
Qed.

Lemma subject_text_ext t t' :
  t' !! "title" = t !! "title" ->
  t' !! "description" = t !! "description" ->
  t' !! "primary_outcome" = t !! "primary_outcome" ->
  subject_text t' = subject_text t.
Proof. intros H1 H2 H3. unfold subject_text, dict_getitem. rewrite H1, H2, H3. reflexivity. Qed.

Lemma for_each_nil_inv {A B} (f : A -> result B) l :
  for_each f l = inr [] -> l = [].
Proof.
  destruct l as [|a l]; [reflexivity|]. simpl.
  destruct (f a); [discriminate|]. simpl.
  destruct (for_each f l); discriminate.
Qed.


(** Turning [_id] into a string changes neither the subject text nor the
    identifier of a trial. *)
Lemma collect_texts_stringified docs : forall docs',
  for_each stringify_id docs = inr docs' ->
  collect_texts docs' = collect_texts docs.
Proof.
  induction docs as [|t docs IH]; simpl; intros docs'.
  - intros [= <-]. reflexivity.
  - destruct (stringify_id t) as [e|t'] eqn:Et; [discriminate|]. simpl.
    destruct (for_each stringify_id docs) as [e|ds]; [discriminate|]. simpl.
    intros [= <-]. simpl.
    rewrite (subject_text_ext t t')
      by (apply (stringify_id_lookup _ _ _ Et); discriminate).
    unfold dict_getitem.
    rewrite (stringify_id_lookup _ _ "id" Et) by discriminate.
    rewrite (IH ds eq_refl). reflexivity.
Qed.



Lemma add_trials_dimension s trials :
  dimension (fst (add_trials s trials)) = dimension s.
Proof.
  destruct (collect_texts trials) as [e|[texts ids]] eqn:Hc.
  - unfold add_trials. rewrite Hc. reflexivity.
  - rewrite (add_trials_unfold _ _ _ _ Hc).
    destruct (faiss.add _ _); reflexivity.
Qed.


Lemma fresh_create_index vs : trial_ids vs = [] -> fresh (create_index vs).
Proof. intros Hids. split; [reflexivity | exact Hids]. Qed.



(** Documents that all carry an [_id] can all be prepared. *)
Lemma for_each_stringify_ok docs :
  Forall (fun doc => is_Some (doc !! "_id")) docs ->
  exists docs', for_each stringify_id docs = inr docs' /\ length docs' = length docs.
Proof.
  induction 1 as [|t docs [oid Hoid] _ (docs' & IH & Hlen)]; simpl.
  - exists []. auto.
  - unfold stringify_id at 1, dict_getitem. rewrite Hoid. simpl. rewrite IH. simpl.
    eexists. split; [reflexivity|]. simpl. f_equal. exact Hlen.
Qed.

End SynchronizerFacts.
Section ColdStartFacts.

Context `{model : SentenceTransformer} `{fmt : PyFormat}.

Lemma store_eq (a b : TrialVectorStore) :
  index a = index b -> trial_ids a = trial_ids b -> dimension a = dimension b ->
  a = b.
Proof. destruct a, b. simpl. intros -> -> ->. reflexivity. Qed.




(** X8: a restart serves what was last saved. After a [save] that completes,
    of a store built on the encoder's dimension, the startup hook run on the
    resulting disk installs exactly that store, leaves the disk as it is, and
    does so whatever the primary store would yield. *)
Theorem restart_serves_saved_store vs w w' fetch :
  dimension vs = get_sentence_embedding_dimension ->
  save vs "vector_store" w = (w', inr tt) ->
  initialize_vector_store fetch w' = {| vector_store := Some vs; disk := w' |}.
Proof.
  intros Hdim Hs. apply save_inv in Hs. destruct Hs as [Hart [ix Hix]].
  unfold artifact, artifact_of in Hart. rewrite Hix in Hart. simpl in Hart.
  injection Hart as Hi Hl.
  unfold initialize_vector_store.
  rewrite (load_ok new_store "vector_store" w' ix (trial_ids vs) Hi Hl).
  f_equal. f_equal. apply store_eq; simpl; auto.
Qed.

End ColdStartFacts.

Lemma restart_serves_saved_store_witness :
  @initialize_vector_store Sample.length_model Sample.plain_format
    (inl RuntimeError)
    (fst (save Sample.two_trials "vector_store" Sample.empty_disk))
  = {| vector_store := Some Sample.two_trials;
       disk := fst (save Sample.two_trials "vector_store" Sample.empty_disk) |}.
Proof.
  apply (@restart_serves_saved_store Sample.length_model Sample.plain_format
           Sample.two_trials Sample.empty_disk).
  - reflexivity.
  - vm_compute. reflexivity.
Defined.

(** ** Refresh and search handlers *)

Section HandlerFacts.

Context `{model : SentenceTransformer} `{fmt : PyFormat}.

Lemma fresh_new_index : fresh (create_index new_store).
Proof. apply fresh_create_index. reflexivity. Qed.

Lemma search_fresh vs query top_k : fresh vs -> search vs query top_k = inr [].
Proof. intros [Hix Hids]. unfold search. rewrite Hix, Hids. reflexivity. Qed.


(** A refresh that meets a document without one of the required keys leaves a
    fresh store. *)
Lemma refresh_missing_key db st key :
  Forall (fun doc => is_Some (doc !! "_id")) db ->
  first_missing_key db = Some key ->
  snd (refresh_vector_store db st) = inl (HTTPException 500) /\
  exists vs, vector_store (fst (refresh_vector_store db st)) = Some vs /\ fresh vs.
Proof.
  intros Hid Hkey. unfold refresh_vector_store.
  destruct (for_each_stringify_ok db Hid) as (docs' & Hf & _). rewrite Hf.
  pose proof (collect_texts_first_missing db) as Hc. rewrite Hkey in Hc.
  rewrite <- (collect_texts_stringified _ _ Hf) in Hc.
  destruct docs' as [|t docs'].
  { apply for_each_nil_inv in Hf. subst db. discriminate Hkey. }
  unfold add_trials. rewrite Hc. simpl.
  split; [reflexivity|]. eexists. split; [reflexivity | apply fresh_new_index].
Qed.

Lemma resolve_nil db rs : resolve db rs [] = inr [].
Proof. reflexivity. Qed.

(** On a fresh store every query is answered with the empty list. *)
Lemma semantic_search_fresh query top_k db st vs :
  vector_store st = Some vs -> fresh vs ->
  semantic_search query top_k db st = (st, inr []).
Proof.
  intros Hvs Hfresh. unfold semantic_search, needs_init.
  rewrite Hvs. destruct Hfresh as [Hix Hids]. rewrite Hix. simpl.
  rewrite Hvs. unfold search. rewrite Hix, Hids. reflexivity.
Qed.



Lemma resolve_length db rs tids trials :
  resolve db rs tids = inr trials -> (length trials <= length tids)%nat.
Proof.
  revert trials. induction tids as [|tid tids IH]; simpl; intros trials.
  - intros [= <-]. simpl. lia.
  - destruct (find_one db tid) as [doc|].
    + destruct (bool_decide (doc = ∅)).
      * intros H. apply IH in H. lia.
      * destruct (attach rs tid doc) as [e|t]; [discriminate|]. simpl.
        destruct (resolve db rs tids) as [e|ts]; [discriminate|]. simpl.
        intros [= <-]. simpl. specialize (IH ts eq_refl). lia.
    + intros H. apply IH in H. lia.
Qed.

(** X12: [semantic_search] either answers with at most [top_k] trials or
    raises [HTTPException(500)]; no other exception leaves the handler. *)
Theorem semantic_search_bounded query top_k db st :
  match snd (semantic_search query top_k db st) with
  | inr trials => Z.of_nat (length trials) <= Z.max 0 top_k
  | inl e => e = HTTPException 500
  end.
Proof.
  unfold semantic_search.
  destruct (if needs_init st then initialise db st else (st, inr tt))
    as [st1 [e|[]]]; simpl; [reflexivity|].
  destruct (vector_store st1) as [vs|]; simpl; [|reflexivity].
  destruct (search vs query top_k) as [e|rs] eqn:Hs; simpl; [reflexivity|].
  destruct (resolve db rs (map trial_id rs)) as [e|trials] eqn:Hr; simpl; [reflexivity|].
  apply resolve_length in Hr. rewrite length_map in Hr.
  pose proof (store_neighbours_length vs query top_k) as Hn.
  rewrite (search_results _ _ _ _ Hs), length_map in Hr.
  pose proof (filter_length_le (in_ledger (trial_ids vs))
                (store_neighbours vs query top_k)) as Hfl.
  lia.
Qed.

End HandlerFacts.

(** X10: a refresh that meets a stored document lacking one of the keys read
    by [add_trials] fails with [HTTPException(500)] and has already replaced
    the global store: from then on every semantic search is answered with the
    empty list, without error. *)
Theorem failed_refresh_empties_search `{model : SentenceTransformer}
    `{fmt : PyFormat} db st key query top_k :
  Forall (fun doc => is_Some (doc !! "_id")) db ->
  first_missing_key db = Some key ->
  snd (refresh_vector_store db st) = inl (HTTPException 500) /\
  semantic_search query top_k db (fst (refresh_vector_store db st))
  = (fst (refresh_vector_store db st), inr []).
Proof.
  intros Hid Hkey.
  destruct (refresh_missing_key db st key Hid Hkey) as (Hr & vs & Hvs & Hfresh).
  split; [exact Hr|]. apply (semantic_search_fresh _ _ _ _ vs); assumption.
Qed.

Lemma failed_refresh_empties_search_witness :
  snd (@refresh_vector_store Sample.length_model Sample.plain_format
         Cases.db_with_untitled Sample.serving_two_trials)
  = inl (HTTPException 500) /\
  @semantic_search Sample.length_model Sample.plain_format "obesity" 5
    Cases.db_with_untitled
    (fst (@refresh_vector_store Sample.length_model Sample.plain_format
            Cases.db_with_untitled Sample.serving_two_trials))
  = (fst (@refresh_vector_store Sample.length_model Sample.plain_format
            Cases.db_with_untitled Sample.serving_two_trials), inr []).
Proof.
  apply (@failed_refresh_empties_search Sample.length_model Sample.plain_format
           Cases.db_with_untitled Sample.serving_two_trials "title" "obesity" 5).
  - repeat constructor; eexists; vm_compute; reflexivity.
  - vm_compute. reflexivity.
Defined.


(** ** What the handlers serve and keep *)

Section ServingFacts.

Context `{model : SentenceTransformer} `{fmt : PyFormat}.

Lemma isoformat_field_other key key' t :
  key' <> key -> isoformat_field key t !! key' = t !! key'.
Proof.
  intros Hne. unfold isoformat_field.
  destruct (t !! key) as [[| | | |dt]|]; try reflexivity.
  apply lookup_insert_ne. congruence.
Qed.

Lemma isoformat_field_no_datetime key t dt :
  isoformat_field key t !! key <> Some (VDatetime dt).
Proof.
  unfold isoformat_field.
  destruct (t !! key) as [[| | | |dt']|] eqn:E; try (rewrite E; discriminate).
  rewrite lookup_insert_eq. discriminate.
Qed.

Lemma find_one_matches db tid doc : find_one db tid = Some doc -> matches_id tid doc = true.
Proof. intros H. apply find_some in H. apply H. Qed.

Lemma attach_served db rs tid doc t :
  find_one db tid = Some doc -> attach rs tid doc = inr t -> served rs tid doc t.
Proof.
  intros Hfind. unfold attach, stringify_id, dict_getitem.
  destruct (doc !! "_id") as [oid|] eqn:Hoid; [|discriminate]. simpl.
  destruct (first_score rs tid) as [e|score] eqn:Hscore; [discriminate|]. simpl.
  intros [= <-].
  split; [apply (find_one_matches db), Hfind|].
  split; [|split; [|split]].
  - exists score. split; [exact Hscore|].
    rewrite !isoformat_field_other by discriminate. apply lookup_insert_eq.
  - exists oid. split; [exact Hoid|].
    rewrite !isoformat_field_other by discriminate.
    rewrite lookup_insert_ne by discriminate. apply lookup_insert_eq.
  - intros key dt Hin. unfold date_keys in Hin.
    repeat (apply elem_of_cons in Hin; destruct Hin as [-> | Hin]);
      [| | | | inversion Hin].
    + rewrite !isoformat_field_other by discriminate.
      apply isoformat_field_no_datetime.
    + rewrite !isoformat_field_other by discriminate.
      apply isoformat_field_no_datetime.
    + rewrite !isoformat_field_other by discriminate.
      apply isoformat_field_no_datetime.
    + apply isoformat_field_no_datetime.
  - intros key Hid Hscore' Hdate. unfold date_keys in Hdate.
    rewrite !not_elem_of_cons in Hdate. destruct Hdate as (H1 & H2 & H3 & H4 & _).
    rewrite !isoformat_field_other by assumption.
    rewrite !lookup_insert_ne by congruence. reflexivity.
Qed.

Lemma resolve_served db rs tids trials :
  resolve db rs tids = inr trials ->
  Forall2 (fun t tid => exists doc, find_one db tid = Some doc /\ served rs tid doc t)
    trials (List.filter (resolvable db) tids).
Proof.
  revert trials. induction tids as [|tid tids IH]; simpl; intros trials.
  - intros [= <-]. constructor.
  - unfold resolvable at 1. destruct (find_one db tid) as [doc|] eqn:Hfind.
    + destruct (bool_decide (doc = ∅)); simpl; [apply IH|].
      destruct (attach rs tid doc) as [e|t] eqn:Ha; [discriminate|]. simpl.
      destruct (resolve db rs tids) as [e|ts]; [discriminate|]. simpl.
      intros [= <-]. constructor; [|apply IH; reflexivity].
      exists doc. split; [exact Hfind | apply (attach_served db), Ha; exact Hfind].
    + apply IH.
Qed.

Lemma semantic_search_inv query top_k db st st' trials :
  semantic_search query top_k db st = (st', inr trials) ->
  exists vs rs,
    vector_store st' = Some vs /\
    search vs query top_k = inr rs /\
    resolve db rs (map trial_id rs) = inr trials.
Proof.
  unfold semantic_search.
  destruct (if needs_init st then initialise db st else (st, inr tt))
    as [st1 [e|[]]]; [discriminate|].
  destruct (vector_store st1) as [vs|] eqn:Hvs; [|discriminate].
  destruct (search vs query top_k) as [e|rs] eqn:Hs; simpl; [discriminate|].
  destruct (resolve db rs (map trial_id rs)) as [e|ts] eqn:Hr; [discriminate|].
  intros [= <- <-]. exists vs, rs. auto.
Qed.

(** Inserting one well-formed trial and querying its subject text. *)
Lemma add_one_then_search s held trial_dict text id top_k :
  holds s held ->
  subject_text trial_dict = inr text ->
  trial_dict !! "id" = Some id ->
  length (encode text) = bound_dimension s ->
  1 <= top_k ->
  exists s',
    add_trials s [trial_dict] = (s', inr tt) /\
    holds s' (held ++ [trial_dict]) /\
    exists r rs p0,
      search s' text top_k = inr (r :: rs) /\
      (similarity_score r == 1)%Q /\
      (p0 <= length held)%nat /\
      trial_ids s' !! p0 = Some (trial_id r).
Proof.
  intros Hh Ht Hid Hdim Hk.
  assert (collect_texts [trial_dict] = inr ([text], [id])) as Hc.
  { simpl. rewrite Ht. unfold dict_getitem. rewrite Hid. reflexivity. }
  destruct (add_trials_holds s held [trial_dict] [text] [id] Hh Hc)
    as (s' & Ha & Hh' & _); [discriminate | repeat constructor; exact Hdim |].
  exists s'. split; [exact Ha|]. split; [exact Hh'|].
  rewrite (add_trials_ok s [trial_dict] [text] [id] Hc) in Ha;
    [|discriminate | repeat constructor; exact Hdim].
  injection Ha as <-.
  destruct Hh as (htexts & hids & Hhc & Hxb & Hids).
  destruct (collect_texts_length _ _ _ Hhc) as [Hlt Hli].
  set (ix' := {| faiss.d := bound_dimension s;
                 faiss.xb := faiss.xb (target_index s) ++ map encode [text] |}).
  destruct (search_exact_match
              (set_trial_ids (trial_ids s ++ [id]) (set_index (Some ix') s))
              ix' text top_k (length held))
    as (r & rs & p0 & Hs & Hscore & Hle & Hlook & _).
  - reflexivity.
  - simpl. unfold faiss.ntotal. simpl.
    rewrite !length_app, Hxb, Hids, length_map. simpl. lia.
  - simpl. rewrite Hxb. rewrite lookup_app_r by (rewrite length_map; lia).
    rewrite length_map. replace (length held - length htexts)%nat with 0%nat by lia.
    reflexivity.
  - exact Hdim.
  - exact Hk.
  - exists r, rs, p0. auto.
Qed.

(** X16: [save] writes nowhere but to its two files: every other path of the
    disk holds after the call what it held before, whether [save] completes
    or raises. *)
Theorem save_touches_only_its_files s path w p :
  p <> os_path_join path "index.faiss" ->
  p <> os_path_join path "trial_ids.json" ->
  files (fst (save s path w)) !! p = files w !! p.
Proof.
  intros Hi Hl. pose proof (save_cases s path w) as Hc. simpl in Hc.
  destruct Hc as [[_ Hf] | (ix & _ & [[_ Hf] | [[_ Hf] | [_ Hf]]])]; rewrite Hf.
  - reflexivity.
  - apply lookup_insert_ne. congruence.
  - rewrite !lookup_insert_ne by congruence. reflexivity.
  - rewrite !lookup_insert_ne by congruence. reflexivity.
Qed.

Lemma save_unserialisable s ix path w :
  index s = Some ix ->
  path <> "" ->
  files w !! path = None ->
  os_path_join path "index.faiss" ∉ readonly w ->
  os_path_join path "trial_ids.json" ∉ readonly w ->
  forallb json_serializable (trial_ids s) = false ->
  snd (save s path w) = inl TypeError /\
  artifact (fst (save s path w)) path = (Some (FaissFile ix), Some Truncated).
Proof.
  intros Hix Hpath Hfree Hi Hl Hjson.
  pose proof (index_ledger_paths_differ path) as Hne.
  unfold save, and_then, makedirs.
  rewrite bool_decide_eq_false_2 by exact Hpath. rewrite Hfree, Hix.
  unfold write_index. simpl. rewrite bool_decide_eq_false_2 by exact Hi.
  unfold open_w. simpl. rewrite bool_decide_eq_false_2 by exact Hl.
  unfold json_dump. rewrite Hjson. simpl. split; [reflexivity|].
  unfold artifact. simpl. f_equal.
  - rewrite lookup_insert_ne by (apply not_eq_sym, Hne). apply lookup_insert_eq.
  - apply lookup_insert_eq.
Qed.

Lemma load_truncated_ledger t path w ix :
  artifact w path = (Some (FaissFile ix), Some Truncated) ->
  load t path w = (set_index (Some ix) t, inl JSONDecodeError).
Proof.
  unfold artifact. intros [= Hi Hl]. unfold load, read_index, json_load.
  rewrite Hi, Hl. reflexivity.
Qed.

End ServingFacts.
Section LazyInitFacts.

Context `{model : SentenceTransformer} `{fmt : PyFormat}.


End LazyInitFacts.

(** X13: every trial served by a completed [semantic_search] is the first
    stored document matching an identifier returned by the search, in search
    order, with [_id] rendered as a string, no date field left as a
    [datetime], every other stored field untouched, and the score of the
    first search result bearing that identifier: an identifier returned twice
    is served twice with the same score. *)
Theorem semantic_search_serves `{model : SentenceTransformer} `{fmt : PyFormat}
    query top_k db st st' trials :
  semantic_search query top_k db st = (st', inr trials) ->
  exists vs rs,
    vector_store st' = Some vs /\
    search vs query top_k = inr rs /\
    Forall2
      (fun t tid => exists doc, find_one db tid = Some doc /\ served rs tid doc t)
      trials (List.filter (resolvable db) (map trial_id rs)).
Proof.
  intros Hs. destruct (semantic_search_inv _ _ _ _ _ _ Hs) as (vs & rs & Hvs & Hsr & Hr).
  exists vs, rs. split; [exact Hvs|]. split; [exact Hsr|].
  apply resolve_served, Hr.
Qed.

Lemma semantic_search_serves_witness :
  exists vs rs,
    vector_store Sample.serving_two_trials = Some vs /\
    @search Sample.length_model vs "obesity" 2 = inr rs /\
    Forall2
      (fun t tid =>
         exists doc,
           find_one Sample.db_without_first tid = Some doc /\
           @served Sample.plain_format rs tid doc t)
      (match snd (@semantic_search Sample.length_model Sample.plain_format
                    "obesity" 2 Sample.db_without_first Sample.serving_two_trials) with
       | inr trials => trials
       | inl _ => []
       end)
      (List.filter (resolvable Sample.db_without_first) (map trial_id rs)).
Proof.
  apply (@semantic_search_serves Sample.length_model Sample.plain_format
           "obesity" 2 Sample.db_without_first Sample.serving_two_trials
           Sample.serving_two_trials).
  vm_compute. reflexivity.
Defined.

(** X14: once [create_trial] has inserted a trial that has its keys and an
    embedding of the bound dimension, the store holds it after what it held,
    whether or not the [save] that follows completes; a query made of the
    trial's subject text is then answered first with score 1, by the trial
    itself or by an earlier trial at distance zero. *)
Theorem created_trial_is_found `{model : SentenceTransformer} `{fmt : PyFormat}
    s held trial_dict text id w top_k :
  holds s held ->
  subject_text trial_dict = inr text ->
  trial_dict !! "id" = Some id ->
  length (encode text) = bound_dimension s ->
  1 <= top_k ->
  exists s',
    vector_store (fst (create_trial trial_dict true
                         {| vector_store := Some s; disk := w |})) = Some s' /\
    holds s' (held ++ [trial_dict]) /\
    exists r rs p0,
      search s' text top_k = inr (r :: rs) /\
      (similarity_score r == 1)%Q /\
      (p0 <= length held)%nat /\
      trial_ids s' !! p0 = Some (trial_id r).
Proof.
  intros Hh Ht Hid Hdim Hk.
  destruct (add_one_then_search s held trial_dict text id top_k Hh Ht Hid Hdim Hk)
    as (s' & Ha & Hh' & Hfound).
  exists s'. split; [|split; assumption].
  unfold create_trial. simpl. rewrite Ha.
  destruct (save s' "vector_store" w) as [w' r]. reflexivity.
Qed.

Lemma created_trial_is_found_witness :
  exists s',
    vector_store (fst (@create_trial Sample.length_model Sample.plain_format
                         Cases.diabetes_trial true
                         {| vector_store := Some (@new_store Sample.length_model);
                            disk := Sample.ledger_locked_disk |})) = Some s' /\
    @holds Sample.length_model Sample.plain_format s' ([] ++ [Cases.diabetes_trial]) /\
    exists r rs p0,
      @search Sample.length_model s' "Diabetes Study  " 3 = inr (r :: rs) /\
      (similarity_score r == 1)%Q /\
      (p0 <= length (@nil trial))%nat /\
      trial_ids s' !! p0 = Some (trial_id r).
Proof.
  apply (@created_trial_is_found Sample.length_model Sample.plain_format
           (@new_store Sample.length_model) [] Cases.diabetes_trial
           "Diabetes Study  " (VStr "test-2") Sample.ledger_locked_disk 3).
  - exists [], []. repeat split.
  - vm_compute. reflexivity.
  - vm_compute. reflexivity.
  - reflexivity.
  - lia.
Defined.

(** X15: [save] opens the ledger file for writing before it serialises the
    ledger. When an identifier cannot be rendered as JSON, a [save] that got
    that far raises [TypeError] and leaves the new index file next to an
    emptied ledger file, and every later [load] from the location fails on
    the ledger after having replaced the index of the store it loads into. *)
Theorem unserialisable_ledger_spoils_artifact `{model : SentenceTransformer}
    s ix path w t :
  index s = Some ix ->
  path <> "" ->
  files w !! path = None ->
  os_path_join path "index.faiss" ∉ readonly w ->
  os_path_join path "trial_ids.json" ∉ readonly w ->
  forallb json_serializable (trial_ids s) = false ->
  snd (save s path w) = inl TypeError /\
  artifact (fst (save s path w)) path = (Some (FaissFile ix), Some Truncated) /\
  load t path (fst (save s path w)) = (set_index (Some ix) t, inl JSONDecodeError).
Proof.
  intros Hix Hpath Hfree Hi Hl Hjson.
  destruct (save_unserialisable s ix path w Hix Hpath Hfree Hi Hl Hjson) as [Hr Hart].
  split; [exact Hr|]. split; [exact Hart|].
  apply load_truncated_ledger, Hart.
Qed.

Lemma unserialisable_ledger_spoils_artifact_witness :
  snd (save Cases.objectid_ledger "vector_store" Sample.mismatched_disk) = inl TypeError /\
  artifact (fst (save Cases.objectid_ledger "vector_store" Sample.mismatched_disk))
    "vector_store"
  = (Some (FaissFile {| faiss.d := 2; faiss.xb := [[3%Q; 0%Q]] |}), Some Truncated) /\
  load (@new_store Sample.length_model) "vector_store"
    (fst (save Cases.objectid_ledger "vector_store" Sample.mismatched_disk))
  = (set_index (Some {| faiss.d := 2; faiss.xb := [[3%Q; 0%Q]] |})
       (@new_store Sample.length_model), inl JSONDecodeError).
Proof.
  apply (@unserialisable_ledger_spoils_artifact Sample.length_model
           Cases.objectid_ledger {| faiss.d := 2; faiss.xb := [[3%Q; 0%Q]] |}
           "vector_store" Sample.mismatched_disk (@new_store Sample.length_model)).
  - reflexivity.
  - discriminate.
  - vm_compute. reflexivity.
  - vm_compute. set_solver.
  - vm_compute. set_solver.
  - reflexivity.
Defined.

Lemma save_touches_only_its_files_witness :
  files (fst (save Sample.two_trials "backup" Sample.mismatched_disk))
    !! "vector_store/index.faiss"
  = files Sample.mismatched_disk !! "vector_store/index.faiss".
Proof.
  apply (save_touches_only_its_files Sample.two_trials
           "backup" Sample.mismatched_disk "vector_store/index.faiss");
    discriminate.
Defined.


(** ** Queries: completeness, growth with [top_k], failures *)

Section RetrievalFacts.

Context `{model : SentenceTransformer}.
Import faiss_spec faiss_facts search_facts.

Lemma map_nth_seq_id {A} (l : list A) (dflt : A) :
  map (fun p => nth p l dflt) (seq 0 (length l)) = l.
Proof.
  induction l as [|a l IH]; [reflexivity|]. simpl. f_equal.
  rewrite <- seq_shift, map_map. exact IH.
Qed.

(** Asked for as many neighbours as the index has vectors, the index returns
    every position once. *)
Lemma knn_all_positions ix q k :
  (faiss.ntotal ix <= k)%nat ->
  Permutation (map fst (faiss.knn ix q k)) (seq 0 (faiss.ntotal ix)).
Proof.
  intros Hk. unfold faiss.knn.
  rewrite take_ge.
  - rewrite <- (sort_hits_perm (faiss.all_hits ix q)).
    unfold faiss.all_hits, faiss.ntotal.
    rewrite enumerate_from_fst, length_map. reflexivity.
  - rewrite <- (Permutation_length (sort_hits_perm (faiss.all_hits ix q))).
    rewrite all_hits_length. exact Hk.
Qed.

(** X18: in a store whose ledger is as long as its non-empty index, a query of
    the index's dimension asking for at least as many results as there are
    vectors gets every identifier of the ledger, each as often as the ledger
    has it, and nothing else. *)
Theorem full_query_returns_every_identifier s ix query top_k :
  index s = Some ix ->
  length (trial_ids s) = faiss.ntotal ix ->
  (0 < faiss.ntotal ix)%nat ->
  length (encode query) = faiss.d ix ->
  Z.of_nat (faiss.ntotal ix) <= top_k ->
  exists rs,
    search s query top_k = inr rs /\
    Permutation (map trial_id rs) (trial_ids s).
Proof.
  intros Hix Hpar Hpos Hdim Hk.
  rewrite (search_under_parity s ix) by (try assumption; lia).
  eexists. split; [reflexivity|].
  rewrite map_map.
  transitivity (map (fun p => nth p (trial_ids s) VNone) (seq 0 (faiss.ntotal ix))).
  - apply (Permutation_map (fun p => trial_id (result_at s ix query p))).
    apply knn_all_positions. lia.
  - rewrite <- Hpar, map_nth_seq_id. reflexivity.
Qed.

(** Asking for more neighbours only adds neighbours at the end. *)
Lemma neighbours_prefix ix q k1 k2 :
  (k1 <= k2)%nat ->
  exists rest, neighbours ix q k2 = neighbours ix q k1 ++ rest.
Proof.
  intros Hk. unfold neighbours, faiss.knn.
  set (l := faiss.sort_hits (faiss.all_hits ix q)).
  set (conv := fun h : nat * Q => (Z.of_nat (fst h), snd h)).
  rewrite !length_take.
  destruct (Nat.le_gt_cases k1 (length l)) as [Hle|Hgt].
  - exists (map conv (drop k1 (take k2 l))
            ++ repeat (-1, faiss.FLT_MAX) (k2 - Nat.min k2 (length l))).
    replace (k1 - Nat.min k1 (length l))%nat with 0%nat by lia. simpl.
    rewrite app_nil_r, app_assoc, <- map_app. do 2 f_equal.
    rewrite <- (take_drop k1 (take k2 l)) at 1. f_equal.
    rewrite take_take. f_equal. lia.
  - exists (repeat (-1, faiss.FLT_MAX) (k2 - k1)).
    rewrite !take_ge by lia. rewrite <- app_assoc. f_equal.
    rewrite <- repeat_app. f_equal. lia.
Qed.

Lemma filter_app_bool {A} (f : A -> bool) (l1 l2 : list A) :
  List.filter f (l1 ++ l2) = List.filter f l1 ++ List.filter f l2.
Proof. apply List.filter_app. Qed.

(** X19: on one store and one query, asking for more results only adds
    results at the end: the answer for [k1] is the beginning of the answer for
    any [k2 >= k1]. *)
Theorem larger_top_k_extends_results s query k1 k2 rs1 :
  search s query k1 = inr rs1 ->
  k1 <= k2 ->
  exists rest, search s query k2 = inr (rs1 ++ rest).
Proof.
  intros Hs Hk. destruct (index s) as [ix|] eqn:Hix.
  2:{ unfold search in Hs. rewrite Hix in Hs. discriminate. }
  destruct (decide (trial_ids s = [])) as [Hids|Hne].
  { rewrite (search_empty_ledger s ix) in Hs |- * by assumption.
    injection Hs as <-. exists []. reflexivity. }
  rewrite (search_unfold s ix) in Hs |- * by assumption.
  destruct (faiss.search ix (encode query) (Z.min k1 _)) as [e|[dists1 labels1]] eqn:E1;
    [discriminate|].
  injection Hs as <-.
  apply search_inv in E1. destruct E1 as (Hdim & Hpos & _ & ->).
  destruct (search_ok ix (encode query) (Z.min k2 (Z.of_nat (length (trial_ids s)))))
    as (dists2 & labels2 & E2); [exact Hdim | lia |].
  rewrite E2. apply search_inv in E2. destruct E2 as (_ & _ & _ & ->).
  destruct (neighbours_prefix ix (encode query)
              (Z.to_nat (Z.min k1 (Z.of_nat (length (trial_ids s)))))
              (Z.to_nat (Z.min k2 (Z.of_nat (length (trial_ids s))))))
    as [rest ->]; [lia|].
  rewrite filter_app_bool, map_app. eauto.
Qed.

(** X20: [search] completes exactly when the store has an index and either
    its ledger is empty or the query's embedding has the index's dimension
    and [top_k] is at least 1; with an empty ledger it completes whatever the
    dimension and [top_k]. *)
Theorem search_completes_exactly_when s query top_k :
  (exists rs, search s query top_k = inr rs) <->
  exists ix,
    index s = Some ix /\
    (trial_ids s = [] \/ (length (encode query) = faiss.d ix /\ 1 <= top_k)).
Proof.
  split.
  - intros [rs Hs]. destruct (index s) as [ix|] eqn:Hix.
    2:{ unfold search in Hs. rewrite Hix in Hs. discriminate. }
    exists ix. split; [reflexivity|].
    destruct (decide (trial_ids s = [])) as [Hids|Hne]; [left; exact Hids | right].
    rewrite (search_unfold s ix) in Hs by assumption.
    destruct (faiss.search ix (encode query) _) as [e|[dists labels]] eqn:E;
      [discriminate|].
    apply search_inv in E. destruct E as (Hdim & Hpos & _). split; [exact Hdim | lia].
  - intros (ix & Hix & [Hids | [Hdim Hk]]).
    + exists []. apply (search_empty_ledger s ix); assumption.
    + destruct (decide (trial_ids s = [])) as [Hids|Hne].
      { exists []. apply (search_empty_ledger s ix); assumption. }
      rewrite (search_unfold s ix) by assumption.
      destruct (search_ok ix (encode query)
                  (Z.min top_k (Z.of_nat (length (trial_ids s)))))
        as (dists & labels & ->);
        [exact Hdim | destruct (trial_ids s); [contradiction | simpl; lia] |].
      eauto.
Qed.

End RetrievalFacts.

Lemma full_query_returns_every_identifier_witness :
  exists rs,
    @search Sample.length_model Sample.two_trials "obesity" 5 = inr rs /\
    Permutation (map trial_id rs) (trial_ids Sample.two_trials).
Proof.
  apply (@full_query_returns_every_identifier Sample.length_model
           Sample.two_trials Sample.two_vectors "obesity" 5).
  - reflexivity.
  - reflexivity.
  - unfold faiss.ntotal, Sample.two_vectors. simpl. lia.
  - reflexivity.
  - unfold faiss.ntotal, Sample.two_vectors. simpl. lia.
Defined.

Lemma larger_top_k_extends_results_witness :
  exists rest,
    @search Sample.length_model Sample.two_trials "obesity" 2
    = inr ((match @search Sample.length_model Sample.two_trials "obesity" 1 with
            | inr rs => rs
            | inl _ => []
            end) ++ rest).
Proof.
  apply (@larger_top_k_extends_results Sample.length_model Sample.two_trials
           "obesity" 1 2).
  - vm_compute. reflexivity.
  - lia.
Defined.

Lemma search_completes_exactly_when_witness :
  exists rs, @search Sample.length_model Sample.two_trials "obesity" 1 = inr rs.
Proof.
  apply (proj2 (@search_completes_exactly_when Sample.length_model
                  Sample.two_trials "obesity" 1)).
  exists Sample.two_vectors. split; [reflexivity|]. right. split; [reflexivity | lia].
Defined.
